(** * nwb-one-blog: the Next.js configuration and the blog post front matter

    A shallow embedding of [next.config.js] (the analyzer toggle, the
    redirect table and the [webpack] hook) and of the front matter of the
    posts under [data/blog], with the properties the specification states
    about them. *)

From Stdlib Require Import Ascii String.
From stdpp Require Import base option list strings gmap fin_maps.

(** ** Strings

    JavaScript strings are sequences of code units.  They are embedded as
    [string]; the regular expression matcher walks them as [list ascii]. *)

Definition chars (s : string) : list ascii := list_ascii_of_string s.

(** ** Regular expressions

    The fragment of the ECMAScript pattern grammar that the two literals of
    [next.config.js] use: pattern characters (an escaped [\.] is the
    character [.]), sequencing of terms, disjunction [|], the greedy
    quantifier [?], groups and the assertion [$].  Captures are not
    recorded: the rules only call [RegExp.prototype.test]. *)

Module RegExp.

Inductive pattern : Type :=
| Empty
| Char (c : ascii)
| Seq (p q : pattern)
| Alt (p q : pattern)
| Opt (p : pattern)
| Group (p : pattern)
| AssertEnd.

Record t : Type := Literal { source : pattern; ignoreCase : bool }.

Definition is_lower (c : ascii) : bool :=
  let n := nat_of_ascii c in (97 <=? n)%nat && (n <=? 122)%nat.

(** [toUpperCase] on one code unit.  Code units from 128 on are left as
    they are: Canonicalize never maps them to a code unit below 128. *)
Definition to_upper (c : ascii) : ascii :=
  if is_lower c then ascii_of_nat (nat_of_ascii c - 32) else c.

(** Canonicalize(ch) of the ECMAScript specification, without the [u] flag. *)
Definition canonicalize (ic : bool) (c : ascii) : ascii :=
  if ic then to_upper c else c.

Definition char_matches (ic : bool) (c d : ascii) : bool :=
  bool_decide (canonicalize ic c = canonicalize ic d).

(** The matcher of the specification in continuation-passing style.  The
    state is the part of the input that is still to be read; with neither
    the [m] flag nor look-behind in the grammar, this is all a matcher
    looks at.  [k] is the continuation that matches the rest of the
    pattern. *)
Fixpoint matcher (ic : bool) (p : pattern) (x : list ascii)
    (k : list ascii → bool) : bool :=
  match p with
  | Empty => k x
  | Char c =>
      match x with
      | [] => false
      | d :: x' => if char_matches ic c d then k x' else false
      end
  | Seq p q => matcher ic p x (λ y, matcher ic q y k)
  | Alt p q => matcher ic p x k || matcher ic q x k
  | Opt p =>
      (* RepeatMatcher with min 0 and max 1, greedy: one iteration that
         must not be empty, then no iteration at all *)
      matcher ic p x (λ y, if bool_decide (length y = length x) then false else k y)
      || k x
  | Group p => matcher ic p x k
  | AssertEnd =>
      match x with
      | [] => k x
      | _ :: _ => false
      end
  end.

Definition match_here (r : t) (x : list ascii) : bool :=
  matcher (ignoreCase r) (source r) x (λ _, true).

(** RegExpBuiltinExec without the [g] and [y] flags: [lastIndex] starts at
    0 and moves forward by one until a match is found or the end of the
    input has been tried. *)
Fixpoint exec (r : t) (x : list ascii) : bool :=
  match_here r x ||
  match x with
  | [] => false
  | _ :: x' => exec r x'
  end.

(** [r.test(s)] *)
Definition test (r : t) (s : string) : bool := exec r (chars s).

(** Denotation of a pattern: [denote ic p s1 s2] when [p] can consume [s1]
    with [s2] left to read. *)
Fixpoint denote (ic : bool) (p : pattern) (s1 s2 : list ascii) : Prop :=
  match p with
  | Empty => s1 = []
  | Char c => ∃ d, s1 = [d] ∧ canonicalize ic c = canonicalize ic d
  | Seq p q => ∃ a b, s1 = a ++ b ∧ denote ic p a (b ++ s2) ∧ denote ic q b s2
  | Alt p q => denote ic p s1 s2 ∨ denote ic q s1 s2
  | Opt p => (s1 ≠ [] ∧ denote ic p s1 s2) ∨ s1 = []
  | Group p => denote ic p s1 s2
  | AssertEnd => s1 = [] ∧ s2 = []
  end.

(** [Alternative :: Alternative Term], from the empty alternative on. *)
Definition terms (ts : list pattern) : pattern := foldl Seq Empty ts.

(** A run of pattern characters. *)
Definition lit (s : string) : pattern := terms (Char <$> chars s).

End RegExp.

(** ** The JavaScript store

    [webpack] receives an object and changes it in place, so objects live
    on a heap and values refer to them by location.  The heap holds data
    only (no function values, no accessors, no frozen objects) and the
    built-in prototypes are the standard ones. *)

Module JS.

Definition loc := positive.

Inductive value : Type :=
| Undefined
| Null
| Bool (b : bool)
| Str (s : string)
| Ref (l : loc).

(** What an object is besides its own named properties: an ordinary
    object, an array with its elements, a RegExp with its pattern and
    flags (no [g] or [y] flag occurs, [lastIndex] is left out), or the
    wrapper that [ToObject] makes of a primitive. *)
Inductive kind : Type :=
| Plain
| Array (items : list value)
| RegExpObject (r : RegExp.t)
| Boxed (v : value).

Record object : Type := Object { kind_of : kind; props : gmap string value }.

Abbreviation heap := (gmap loc object).

Inductive completion (A : Type) : Type :=
| Normal (a : A)
| ThrowTypeError
| Stuck.
Arguments Normal {A} a.
Arguments ThrowTypeError {A}.
Arguments Stuck {A}.

(** A computation reads and writes the heap; what it wrote before an
    exception stays written.  [Stuck] is the outcome of following a
    reference to a location that is not on the heap, which no JavaScript
    program can hold. *)
Definition M (A : Type) : Type := heap → completion A * heap.

#[export] Instance M_ret : MRet M := λ A a h, (Normal a, h).

#[export] Instance M_bind : MBind M := λ A B f m h,
  match m h with
  | (Normal a, h') => f a h'
  | (ThrowTypeError, h') => (ThrowTypeError, h')
  | (Stuck, h') => (Stuck, h')
  end.

#[export] Instance M_fmap : FMap M := λ A B f m, a ← m; mret (f a).

Definition throw_type_error {A} : M A := λ h, (ThrowTypeError, h).

Definition deref (l : loc) : M object := λ h,
  match h !! l with
  | Some o => (Normal o, h)
  | None => (Stuck, h)
  end.

Definition store (l : loc) (o : object) : M unit := λ h, (Normal (), <[l:=o]> h).

(** Evaluating an object, array or regular expression literal makes a new
    object.  Its address cannot be observed. *)
Definition alloc (o : object) : M loc := λ h,
  let l := fresh (dom h) in (Normal l, <[l:=o]> h).

Definition object_literal (fields : gmap string value) : M loc :=
  alloc (Object Plain fields).
Definition array_literal (items : list value) : M loc :=
  alloc (Object (Array items) ∅).
Definition regexp_literal (r : RegExp.t) : M loc :=
  alloc (Object (RegExpObject r) ∅).

(** [v.k] for the names [module], [rules], [resolve] and [alias]: an own
    property if there is one, [undefined] otherwise, since no built-in
    prototype defines one of these names.  Reading a property of
    [undefined] or [null] throws. *)
Definition get (v : value) (k : string) : M value :=
  match v with
  | Undefined | Null => throw_type_error
  | Bool _ | Str _ => mret Undefined
  | Ref l => o ← deref l; mret (default Undefined (props o !! k))
  end.

(** The value of [v.push]: [Array.prototype.push] on an array that has no
    own property of that name, and nothing that can be called on any
    other value of this heap. *)
Inductive callee : Type :=
| ArrayPush (this : loc)
| NotCallable.

Definition get_push (v : value) : M callee :=
  match v with
  | Undefined | Null => throw_type_error
  | Bool _ | Str _ => mret NotCallable
  | Ref l =>
      o ← deref l;
      match props o !! "push", kind_of o with
      | None, Array _ => mret (ArrayPush l)
      | _, _ => mret NotCallable
      end
  end.

(** The call [f(arg)], with [this] bound as the member expression bound it. *)
Definition call (f : callee) (arg : value) : M unit :=
  match f with
  | NotCallable => throw_type_error
  | ArrayPush l =>
      o ← deref l;
      match kind_of o with
      | Array items => store l (Object (Array (items ++ [arg])) (props o))
      | _ => throw_type_error
      end
  end.

(** [Object.assign(target, source)] for a [source] that is an ordinary
    object whose property names are not array indices: the target is
    converted to an object, then every own property of the source is set
    on it. *)
Definition object_assign (target : value) (source : loc) : M value :=
  match target with
  | Undefined | Null => throw_type_error
  | Bool _ | Str _ =>
      from ← deref source;
      Ref <$> alloc (Object (Boxed target) (props from))
  | Ref t =>
      to ← deref t;
      from ← deref source;
      _ ← store t (Object (kind_of to) (props from ∪ props to));
      mret target
  end.

End JS.

(** ** next.config.js *)

Import JS.

(** *** The analyzer toggle (lines 1-3) *)

Record AnalyzerOptions : Type := { enabled : bool }.

(** [process.env] maps the names of the variables that are set to their
    values; a name that is not set reads as [undefined], which is not
    strictly equal to any string. *)
Definition analyzer_options (env : gmap string string) : AnalyzerOptions :=
  {| enabled := bool_decide (env !! "ANALYZE" = Some "true") |}.

(** *** The redirect table (lines 11-56) *)

Record Redirect : Type := {
  source : string;
  destination : string;
  permanent : bool
}.

(** The function is [async]: it returns a promise that is fulfilled with
    this list. *)
Definition redirects : list Redirect := [
  {| source := "/blog/auditing-dotnet-entity-framework-core";
     destination := "https://minimalizt.dev/blog/auditing-dotnet-entity-framework-core/";
     permanent := true |};
  {| source := "/blog/difference-between-datetime-now-utcnow";
     destination := "https://minimalizt.dev/blog/difference-between-datetime-now-utcnow/";
     permanent := true |};
  {| source := "/blog/entity-framework-query-filters-per-request-configuration";
     destination :=
       "https://minimalizt.dev/blog/entity-framework-query-filters-per-request-configuration/";
     permanent := true |};
  {| source := "/blog/exception-filter-attribute-dotnet";
     destination := "https://minimalizt.dev/blog/exception-filter-attribute-dotnet/";
     permanent := true |};
  {| source := "/blog/linq-extensions-pagination-order-by-property-name";
     destination :=
       "https://minimalizt.dev/blog/linq-extensions-pagination-order-by-property-name/";
     permanent := true |};
  {| source := "/blog/openid-connect-dotnet-5";
     destination := "https://minimalizt.dev/blog/openid-connect-dotnet-5/";
     permanent := true |};
  {| source := "/blog/set-up-automapper-dotnet-core";
     destination := "https://minimalizt.dev/blog/set-up-automapper-dotnet-core/";
     permanent := true |};
  {| source := "/blog/swagger-api-versioning-dotnet-core";
     destination := "https://minimalizt.dev/blog/swagger-api-versioning-dotnet-core/";
     permanent := true |}
].

(** *** The webpack hook (lines 57-86) *)

(** [/\.(png|jpe?g|gif|mp4)$/i] *)
Definition file_test : RegExp.t :=
  {| RegExp.source :=
       RegExp.terms [
         RegExp.Char ".";
         RegExp.Group
           (RegExp.Alt (RegExp.lit "png")
           (RegExp.Alt (RegExp.terms [RegExp.Char "j"; RegExp.Char "p";
                                      RegExp.Opt (RegExp.Char "e"); RegExp.Char "g"])
           (RegExp.Alt (RegExp.lit "gif")
                       (RegExp.lit "mp4"))));
         RegExp.AssertEnd ];
     RegExp.ignoreCase := true |}.

(** [/\.svg$/] *)
Definition svg_test : RegExp.t :=
  {| RegExp.source :=
       RegExp.terms [RegExp.Char "."; RegExp.Char "s"; RegExp.Char "v"; RegExp.Char "g";
                     RegExp.AssertEnd];
     RegExp.ignoreCase := false |}.

Definition file_loader_options : gmap string value :=
  {[ "publicPath" := Str "/_next";
     "name" := Str "static/media/[name].[hash].[ext]" ]}.

Definition preact_aliases : gmap string value :=
  {[ "react/jsx-runtime.js" := Str "preact/compat/jsx-runtime";
     "react" := Str "preact/compat";
     "react-dom/test-utils" := Str "preact/test-utils";
     "react-dom" := Str "preact/compat" ]}.

(** The second argument, of which the hook takes [dev] and [isServer]. *)
Record Options : Type := { dev : bool; isServer : bool }.

(** The object literals of the two rules.  Each allocates innermost
    first; JavaScript allocates the enclosing object first, which only
    changes addresses. *)

(** [{ test: /\.(png|jpe?g|gif|mp4)$/i,
       use: [{ loader: 'file-loader', options: { publicPath: ..., name: ... } }] }] *)
Definition file_rule_literal : M loc :=
  test ← regexp_literal file_test;
  opts ← object_literal file_loader_options;
  entry ← object_literal {[ "loader" := Str "file-loader"; "options" := Ref opts ]};
  use ← array_literal [Ref entry];
  object_literal {[ "test" := Ref test; "use" := Ref use ]}.

(** [{ test: /\.svg$/, use: ['@svgr/webpack'] }] *)
Definition svg_rule_literal : M loc :=
  test ← regexp_literal svg_test;
  use ← array_literal [Str "@svgr/webpack"];
  object_literal {[ "test" := Ref test; "use" := Ref use ]}.

(** In a call [o.f(arg)] the member [o.f] is read before the argument is
    evaluated. *)
Definition webpack (config : value) (options : Options) : M value :=
  (* config.module.rules.push({ ... }) *)
  module ← get config "module";
  rules ← get module "rules";
  push ← get_push rules;
  rule ← file_rule_literal;
  _ ← call push (Ref rule);
  (* config.module.rules.push({ ... }) *)
  module ← get config "module";
  rules ← get module "rules";
  push ← get_push rules;
  rule ← svg_rule_literal;
  _ ← call push (Ref rule);
  _ ← (if negb (dev options) && negb (isServer options) then
         (* Replace React with Preact only in client production build *)
         resolve ← get config "resolve";
         alias ← get resolve "alias";
         from ← object_literal preact_aliases;
         _ ← object_assign alias from;
         mret ()
       else mret ());
  mret config.

(** *** The exported configuration (lines 5-87) *)

Module Next.

Record config : Type := Config {
  reactStrictMode : bool;
  pageExtensions : list string;
  eslint_dirs : list string;
  redirects : list Redirect;
  webpack : value → Options → M value
}.

End Next.

Definition nextConfig : Next.config :=
  {| Next.reactStrictMode := true;
     Next.pageExtensions := ["js"; "jsx"; "md"; "mdx"];
     Next.eslint_dirs := ["pages"; "components"; "lib"; "layouts"; "scripts"];
     Next.redirects := redirects;
     Next.webpack := webpack |}.

Section exports.

(** [require('@next/bundle-analyzer')], a package that is not part of the
    repository. *)
Variable bundleAnalyzer : AnalyzerOptions → Next.config → Next.config.

Definition withBundleAnalyzer (env : gmap string string) : Next.config → Next.config :=
  bundleAnalyzer (analyzer_options env).

Definition module_exports (env : gmap string string) : Next.config :=
  withBundleAnalyzer env nextConfig.

End exports.

(** ** Reading the configuration back

    What the bundler sees of a rule: its test and the loaders it names. *)

Inductive UseItem : Type :=
| Loader (name : string)
| LoaderWithOptions (name : string) (options : gmap string value).

Record Rule : Type := { test : RegExp.t; use : list UseItem }.

Definition read_string (v : value) : option string :=
  match v with Str s => Some s | _ => None end.

Definition read_ref (v : value) : option loc :=
  match v with Ref l => Some l | _ => None end.

Definition read_use_item (h : heap) (v : value) : option UseItem :=
  match v with
  | Str s => Some (Loader s)
  | Ref l =>
      o ← h !! l;
      name ← props o !! "loader" ≫= read_string;
      lo ← props o !! "options" ≫= read_ref;
      oo ← h !! lo;
      Some (LoaderWithOptions name (props oo))
  | _ => None
  end.

Definition read_rule (h : heap) (v : value) : option Rule :=
  l ← read_ref v;
  o ← h !! l;
  lt ← props o !! "test" ≫= read_ref;
  ot ← h !! lt;
  lu ← props o !! "use" ≫= read_ref;
  ou ← h !! lu;
  match kind_of ot, kind_of ou with
  | RegExpObject r, Array items =>
      us ← mapM (read_use_item h) items;
      Some {| test := r; use := us |}
  | _, _ => None
  end.

(** A rule applies to a resource when its test matches the path. *)
Definition rule_matches (r : Rule) (path : string) : bool := RegExp.test (test r) path.

Definition file_rule : Rule :=
  {| test := file_test;
     use := [LoaderWithOptions "file-loader" file_loader_options] |}.

Definition svg_rule : Rule :=
  {| test := svg_test; use := [Loader "@svgr/webpack"] |}.

(** The elements of the array at [l], and the properties of the object at [l]. *)
Definition items_at (h : heap) (l : loc) : option (list value) :=
  o ← h !! l;
  match kind_of o with Array items => Some items | _ => None end.

Definition props_at (h : heap) (l : loc) : option (gmap string value) :=
  props <$> h !! l.


(** ** What the hook does to the heap *)

(** [config.module.rules] and [config.resolve.alias], when both steps lead
    to objects. *)
Definition rules_of (h : heap) (config : loc) : option loc :=
  oc ← h !! config;
  m ← props oc !! "module" ≫= read_ref;
  om ← h !! m;
  props om !! "rules" ≫= read_ref.

Definition alias_of (h : heap) (config : loc) : option loc :=
  oc ← h !! config;
  s ← props oc !! "resolve" ≫= read_ref;
  os ← h !! s;
  props os !! "alias" ≫= read_ref.

(** Whether the object at [l] has an own property named [push]. *)
Definition own_push (h : heap) (l : loc) : option value :=
  o ← h !! l; props o !! "push".

(** A client production build. *)
Definition production (options : Options) : bool :=
  negb (dev options) && negb (isServer options).

(** The object that stands at [l] once the hook has run, if [o] stood
    there before: the rules array has [new_rules] at its end, the alias
    object has the Preact aliases if they were [assigned], and nothing
    else differs. *)
Definition after_webpack (assigned : bool) (rules alias : loc)
    (new_rules : list value) (l : loc) (o : object) : object :=
  {| kind_of :=
       match kind_of o with
       | Array items => if decide (l = rules) then Array (items ++ new_rules) else Array items
       | k => k
       end;
     props :=
       if assigned && bool_decide (l = alias)
       then preact_aliases ∪ props o
       else props o |}.

(** A heap with every object replaced by its image under [f]. *)
Definition update_all (f : loc → object → object) (h : heap) : heap :=
  map_imap (λ l o, Some (f l o)) h.

(** The heap in the middle of a run on [h]: the objects of [h] as the hook
    has changed them so far, and the objects [hn] it has made. *)
Definition evolved (h : heap) (rules alias : loc) (assigned : bool)
    (new_rules : list value) (hn : heap) : heap :=
  hn ∪ update_all (after_webpack assigned rules alias new_rules) h.

(** Upper-casing a whole path, to compare extensions without regard to case. *)
Definition upper (x : list ascii) : list ascii := RegExp.to_upper <$> x.

(** The extensions of the binary-asset rule. *)
Definition media_extensions : list string := [".png"; ".jpg"; ".jpeg"; ".gif"; ".mp4"].

(** The object the framework passes to the hook: [config.module.rules] is
    an array with the given items and the standard [push], and
    [config.resolve.alias] is an object with the given properties. *)
Definition config_shape (h : heap) (config rules : loc) (items : list value)
    (alias : loc) (aliases : gmap string value) : Prop :=
  rules_of h config = Some rules ∧
  items_at h rules = Some items ∧
  own_push h rules = None ∧
  alias_of h config = Some alias ∧
  props_at h alias = Some aliases.

(** ** The routing layer *)

Record Response : Type := { location : string; moved_permanently : bool }.

(** Modelled from the spec: the routing layer of the host framework, which
    is not part of the repository, consults the table on every request by
    exact path lookup. *)
Definition lookup_redirect (table : list Redirect) (path : string) : option Redirect :=
  List.find (λ r, bool_decide (source r = path)) table.

(** Modelled from the spec: the routing layer answers a request that
    matches an entry with a redirect to the destination of the entry,
    permanent if the entry says so. *)
Definition respond (table : list Redirect) (path : string) : option Response :=
  r ← lookup_redirect table path;
  Some {| location := destination r; moved_permanently := permanent r |}.

(** The characters with which the framework's path syntax writes a
    parameter [:name], a wildcard or modifier [* + ?], a pattern [( )], a
    group [{ }] or an escape (the backslash, code 92); a source without
    them is a literal path. *)
Definition path_syntax : list ascii := chars ":*+?(){}" ++ [ascii_of_nat 92].

Definition is_literal_path (s : string) : bool :=
  forallb (λ c, bool_decide (c ∉ path_syntax)) (chars s).

(** ** The analyzer package

    A stand-in for [@next/bundle-analyzer], which is not part of the
    repository: with [enabled] false it hands the configuration back;
    otherwise it wraps the [webpack] hook so that a plugin is pushed on
    [config.plugins] first. *)

Definition push_analyzer_plugin (config : value) : M unit :=
  plugins ← get config "plugins";
  push ← get_push plugins;
  plugin ← object_literal {[ "analyzerMode" := Str "static" ]};
  call push (Ref plugin).

Definition bundle_analyzer (o : AnalyzerOptions) (c : Next.config) : Next.config :=
  if enabled o then
    {| Next.reactStrictMode := Next.reactStrictMode c;
       Next.pageExtensions := Next.pageExtensions c;
       Next.eslint_dirs := Next.eslint_dirs c;
       Next.redirects := Next.redirects c;
       Next.webpack := λ config options,
         _ ← push_analyzer_plugin config; Next.webpack c config options |}
  else c.

(** ** A configuration object as the framework passes it

    [{ module: { rules: [<a rule>] }, resolve: { alias: { next: ... } },
       plugins: [] }] *)
Definition example_heap : heap :=
  {[ 1%positive := Object Plain {[ "module" := Ref 2%positive;
                                   "resolve" := Ref 4%positive;
                                   "plugins" := Ref 7%positive ]};
     2%positive := Object Plain {[ "rules" := Ref 3%positive ]};
     3%positive := Object (Array [Ref 6%positive]) ∅;
     4%positive := Object Plain {[ "alias" := Ref 5%positive ]};
     5%positive := Object Plain {[ "next" := Str "/app/node_modules/next" ]};
     6%positive := Object Plain {[ "loader" := Str "next-swc-loader" ]};
     7%positive := Object (Array []) ∅ ]}.

Definition client_production : Options := {| dev := false; isServer := false |}.
Definition development : Options := {| dev := true; isServer := false |}.
(** ** Blog posts

    The reader of a post file is not among the sources.  A post file is a
    front matter block between two [---] lines, one [key: value] per line,
    followed by the markdown body.  The values that occur are single-quoted
    strings, [true] or [false], and bracketed lists of single-quoted
    strings. *)

Inductive yaml : Type :=
| YString (s : string)
| YBool (b : bool)
| YSeq (items : list string).

Definition unchars (x : list ascii) : string := string_of_list_ascii x.

(** The key before the first [": "] of a line, and what follows it. *)
Fixpoint split_key (l : list ascii) : option (list ascii * list ascii) :=
  match l with
  | [] => None
  | c :: l' =>
      match c, l' with
      | ":"%char, " "%char :: v => Some ([], v)
      | _, _ => '(k, v) ← split_key l'; Some (c :: k, v)
      end
  end.

Inductive seq_state : Type :=
| ExpectItem
| InQuote (acc : list ascii)
| AfterItem.

(** The items of a list, read from behind its opening bracket. *)
Fixpoint scan_seq (st : seq_state) (items : list string) (l : list ascii)
    : option (list string) :=
  match l with
  | [] => None
  | c :: l' =>
      match st with
      | ExpectItem =>
          if bool_decide (c = " "%char) then scan_seq ExpectItem items l'
          else if bool_decide (c = "'"%char) then scan_seq (InQuote []) items l'
          else if bool_decide (c = "]"%char ∧ items = [] ∧ l' = []) then Some []
          else None
      | InQuote acc =>
          if bool_decide (c = "'"%char) then scan_seq AfterItem (items ++ [unchars acc]) l'
          else scan_seq (InQuote (acc ++ [c])) items l'
      | AfterItem =>
          if bool_decide (c = " "%char) then scan_seq AfterItem items l'
          else if bool_decide (c = ","%char) then scan_seq ExpectItem items l'
          else if bool_decide (c = "]"%char ∧ l' = []) then Some items
          else None
      end
  end.

(** A quoted string, read from behind its opening quote. *)
Definition parse_quoted (l : list ascii) : option string :=
  match reverse l with
  | "'"%char :: s => if bool_decide ("'"%char ∈ s) then None else Some (unchars (reverse s))
  | _ => None
  end.

Definition parse_value (l : list ascii) : option yaml :=
  match l with
  | "'"%char :: s => YString <$> parse_quoted s
  | "["%char :: s => YSeq <$> scan_seq ExpectItem [] s
  | _ =>
      if bool_decide (l = chars "true") then Some (YBool true)
      else if bool_decide (l = chars "false") then Some (YBool false)
      else None
  end.

Definition parse_line (line : string) : option (string * yaml) :=
  '(k, v) ← split_key (chars line);
  y ← parse_value v;
  Some (unchars k, y).

(** The fields up to the closing [---], and the lines after it. *)
Fixpoint parse_fields (lines : list string) : option (list (string * yaml) * list string) :=
  match lines with
  | [] => None
  | line :: rest =>
      if bool_decide (line = "---") then Some ([], rest)
      else
        kv ← parse_line line;
        '(fs, body) ← parse_fields rest;
        Some (kv :: fs, body)
  end.

(** Modelled from the spec: the reader of a post file, which is not among
    the sources, splits it into the fields of the front matter and the
    body. *)
Definition front_matter (lines : list string) : option (list (string * yaml) * list string) :=
  match lines with
  | first :: rest => if bool_decide (first = "---") then parse_fields rest else None
  | [] => None
  end.

(** Modelled from the spec: the blog post record
    [{title, date, tags, draft flag, summary, body}]. *)
Record Post : Type := {
  title : string;
  date : string;
  tags : list string;
  draft : bool;
  summary : string;
  body : list string
}.

Definition as_string (y : yaml) : option string :=
  match y with YString s => Some s | _ => None end.
Definition as_bool (y : yaml) : option bool :=
  match y with YBool b => Some b | _ => None end.
Definition as_seq (y : yaml) : option (list string) :=
  match y with YSeq l => Some l | _ => None end.

(** Modelled from the spec: a file conforms to the record shape when its
    front matter has the five fields, each once and of its type, and no
    other field. *)
Definition read_post (lines : list string) : option Post :=
  '(fs, rest) ← front_matter lines;
  let m : gmap string yaml := list_to_map fs in
  if bool_decide (NoDup fs.*1 ∧ length fs = 5) then
    t ← m !! "title" ≫= as_string;
    d ← m !! "date" ≫= as_string;
    ts ← m !! "tags" ≫= as_seq;
    dr ← m !! "draft" ≫= as_bool;
    s ← m !! "summary" ≫= as_string;
    Some {| title := t; date := d; tags := ts; draft := dr; summary := s; body := rest |}
  else None.

Definition post_fields : list string := ["title"; "date"; "tags"; "draft"; "summary"].

(** Lines 1-7 of each post under [data/blog]; the body follows. *)

Definition entity_framework_query_filters_per_request_configuration : list string := [
  "---";
  "title: 'Entity Framework global query filters - per-request configuration'";
  "date: '2021-05-10'";
  "tags: ['asp-net-core', 'dotnet', 'entity-framework']";
  "draft: false";
  "summary: 'Learn what Entity Framework global query filters are and how to configure it per request.'";
  "---"
].

Definition linq_extensions_pagination_order_by_property_name : list string := [
  "---";
  "title: 'LINQ extensions for pagination and ordering by property name in Entity Framework'";
  "date: '2021-05-17'";
  "tags: ['asp-net-core', 'dotnet', 'linq', 'entity-framework']";
  "draft: false";
  "summary: 'Learn how to create LINQ extensions that will simplify pagination and ordering by property names in Entity Framework.'";
  "---"
].

Definition set_up_automapper_dotnet_core : list string := [
  "---";
  "title: 'Simple AutoMapper setup in .NET 5'";
  "date: '2021-05-24'";
  "tags: ['asp-net-core', 'dotnet', 'automapper']";
  "draft: false";
  "summary: 'Learn one of the simplest ways to configure AutoMapper in .NET 5'";
  "---"
].

Definition swagger_api_versioning_dotnet_core : list string := [
  "---";
  "title: 'Set up Swagger and API versioning in .NET 5 web API'";
  "date: '2021-05-06'";
  "tags: ['asp-net-core', 'dotnet', 'swagger']";
  "draft: false";
  "summary: 'API versioning and Swagger goes hand in hand when developing APIs. Learn how to easily set it up.'";
  "---"
].

(** The post on OpenIddict, whose file name is not known. *)
Definition token_authentication_openiddict : list string := [
  "---";
  "title: 'Set up token authentication with OpenIddict in .NET 5'";
  "date: '2021-06-05'";
  "tags: ['asp-net-core', 'dotnet', 'oidc', 'authentication']";
  "draft: false";
  "summary: 'Learn how to set up an OpenID Connect server using OpenIddict in .NET 5.'";
  "---"
].

Definition blog_posts : list (list string) := [
  entity_framework_query_filters_per_request_configuration;
  linq_extensions_pagination_order_by_property_name;
  set_up_automapper_dotnet_core;
  swagger_api_versioning_dotnet_core;
  token_authentication_openiddict
].

(** ** Reading the hook statement by statement *)

(** What the property [k] of the object [o] reads as. *)
Definition member (o : object) (k : string) : value := default Undefined (props o !! k).

(** [undefined] and [null], the values that have no properties. *)
Definition nullish (v : value) : bool :=
  match v with Undefined | Null => true | _ => false end.

(** The last statement of the hook before [return config] (lines 76-84). *)
Definition assign_aliases (config : value) (options : Options) : M unit :=
  if negb (dev options) && negb (isServer options) then
    resolve ← get config "resolve";
    alias ← get resolve "alias";
    from ← object_literal preact_aliases;
    _ ← object_assign alias from;
    mret ()
  else mret ().

(** ** The tests as checks of the extension *)

(** Whether [path] ends with one of the media extensions, letters compared
    without regard to case. *)
Definition has_media_extension (path : string) : bool :=
  existsb (λ e, bool_decide (upper (chars e) `suffix_of` upper (chars path)))
          media_extensions.

(** Whether [path] ends with [.svg] as written. *)
Definition has_svg_extension (path : string) : bool :=
  bool_decide (chars ".svg" `suffix_of` chars path).
(** * Properties *)

Lemma chars_app (s t : string) : chars (s +:+ t) = chars s ++ chars t.
Proof.
  induction s as [|c s IH]; simpl; [done|]. unfold chars in *. simpl. by rewrite IH.
Qed.

Section matcher_correct.
Import RegExp.
Variable ic : bool.

Lemma matcher_spec p : ∀ x k,
  matcher ic p x k = true ↔
  ∃ s1 s2, x = s1 ++ s2 ∧ denote ic p s1 s2 ∧ k s2 = true.
Proof.
  induction p as [|c|p IHp q IHq|p IHp q IHq|p IHp|p IHp|]; intros x k; simpl.
  - split.
    + intros H. by exists [], x.
    + intros (s1 & s2 & -> & -> & H). done.
  - split.
    + destruct x as [|d x']; [done|].
      unfold char_matches. case_bool_decide as Hc; [|done].
      intros H. exists [d], x'. eauto.
    + intros (s1 & s2 & -> & (d & -> & Hc) & H). simpl.
      unfold char_matches. by rewrite bool_decide_eq_true_2.
  - rewrite IHp. split.
    + intros (a & r & -> & Ha & H). apply IHq in H as (b & s2 & -> & Hb & H).
      exists (a ++ b), s2. rewrite <- (assoc_L (++)). eauto 10.
    + intros (s1 & s2 & -> & (a & b & -> & Ha & Hb) & H).
      exists a, (b ++ s2). rewrite <- (assoc_L (++)). split_and!; [done..|].
      apply IHq. eauto.
  - rewrite orb_true_iff, IHp, IHq. split.
    + intros [(s1 & s2 & ? & ? & ?)|(s1 & s2 & ? & ? & ?)]; eauto 10.
    + intros (s1 & s2 & ? & [?|?] & ?); eauto 10.
  - rewrite orb_true_iff, IHp. split.
    + intros [(s1 & s2 & -> & Hd & H)|H].
      * case_bool_decide as Hl; [done|]. exists s1, s2. split_and!; [done| |done].
        left. split; [|done]. intros ->. done.
      * exists [], x. eauto.
    + intros (s1 & s2 & -> & [[Hne Hd]| ->] & H).
      * left. exists s1, s2. split_and!; [done..|].
        rewrite bool_decide_eq_false_2; [done|].
        rewrite length_app. destruct s1; [done|]. simpl. lia.
      * by right.
  - apply IHp.
  - split.
    + destruct x; [|done]. intros H. by exists [], [].
    + intros (s1 & s2 & -> & [-> ->] & H). done.
Qed.

Lemma exec_spec p x :
  exec (Literal p ic) x = true ↔
  ∃ pre s1 s2, x = pre ++ s1 ++ s2 ∧ denote ic p s1 s2.
Proof.
  induction x as [|c x IH]; simpl; rewrite orb_true_iff; unfold match_here; simpl;
    rewrite matcher_spec.
  - split.
    + intros [(s1 & s2 & E & H & _)|?]; [|done]. exists [], s1, s2. done.
    + intros (pre & s1 & s2 & E & H). left.
      symmetry in E. apply app_eq_nil in E as [-> E]. eauto.
  - rewrite IH. split.
    + intros [(s1 & s2 & E & H & _)|(pre & s1 & s2 & -> & H)].
      * exists [], s1, s2. done.
      * exists (c :: pre), s1, s2. done.
    + intros (pre & s1 & s2 & E & H). destruct pre as [|c' pre]; simpl in E.
      * left. eauto.
      * right. injection E as -> ->. eauto.
Qed.
End matcher_correct.

(** ** Properties of the matcher *)

Section matcher_case.
Import RegExp.
Variable ic : bool.

(** Matching only looks at the canonical form of the input. *)
Lemma matcher_canon p : ∀ x y k k',
  canonicalize ic <$> x = canonicalize ic <$> y →
  (∀ x' y', canonicalize ic <$> x' = canonicalize ic <$> y' → k x' = k' y') →
  matcher ic p x k = matcher ic p y k'.
Proof.
  induction p as [|c|p IHp q IHq|p IHp q IHq|p IHp|p IHp|]; intros x y k k' Hxy Hk; simpl.
  - by apply Hk.
  - destruct x as [|d x], y as [|d' y]; try done.
    injection Hxy as Hd Hxy. unfold char_matches. rewrite Hd.
    case_bool_decide; [by apply Hk|done].
  - apply IHp; [done|]. intros x' y' H'. by apply IHq.
  - by rewrite (IHp x y k k'), (IHq x y k k').
  - f_equal; [|by apply Hk]. apply IHp; [done|]. intros x' y' H'.
    assert (length x' = length y') as ->.
    { by rewrite <- (length_fmap (canonicalize ic) x'), H', length_fmap. }
    assert (length x = length y) as ->.
    { by rewrite <- (length_fmap (canonicalize ic) x), Hxy, length_fmap. }
    case_bool_decide; [done|by apply Hk].
  - by apply IHp.
  - destruct x, y; try done. by apply Hk.
Qed.

Lemma exec_canon p x : ∀ y,
  canonicalize ic <$> x = canonicalize ic <$> y →
  exec (Literal p ic) x = exec (Literal p ic) y.
Proof.
  induction x as [|c x IH]; intros [|d y] Hxy; try done; simpl.
  injection Hxy as Hc Hxy. f_equal; [|by apply IH].
  unfold match_here; simpl. apply matcher_canon; [|done]. simpl. by rewrite Hc, Hxy.
Qed.
End matcher_case.

Lemma exec_suffix r pre x :
  RegExp.match_here r x = true → RegExp.exec r (pre ++ x) = true.
Proof.
  intros H. induction pre as [|c pre IH]; simpl.
  - destruct x; simpl; by rewrite H.
  - rewrite IH. apply orb_true_r.
Qed.

Lemma upper_app x y : upper (x ++ y) = upper x ++ upper y.
Proof. apply fmap_app. Qed.

#[local] Ltac destruct_denote :=
  repeat match goal with
  | H : ∃ _, _ |- _ => destruct H
  | H : _ ∧ _ |- _ => destruct H
  | H : _ ∨ _ |- _ => destruct H
  end.

Lemma file_test_spec (path : string) :
  RegExp.test file_test path = true ↔
  ∃ e pre ext, e ∈ media_extensions ∧ chars path = pre ++ ext ∧ upper ext = upper (chars e).
Proof.
  unfold RegExp.test, file_test. split.
  - intros H. apply exec_spec in H as (pre & s1 & s2 & E & H). cbn in H.
    destruct_denote; subst; rewrite E, ?app_nil_r.
    all: unfold RegExp.canonicalize in *.
    + exists ".png", pre. eexists. split_and!; [set_solver|done|]. cbn. congruence.
    + exists ".jpeg", pre. eexists. split_and!; [set_solver|done|]. cbn. congruence.
    + exists ".jpg", pre. eexists. split_and!; [set_solver|done|]. cbn. congruence.
    + exists ".gif", pre. eexists. split_and!; [set_solver|done|]. cbn. congruence.
    + exists ".mp4", pre. eexists. split_and!; [set_solver|done|]. cbn. congruence.
  - intros (e & pre & ext & He & -> & Hext).
    rewrite (exec_canon true _ _ (pre ++ chars e)).
    + apply exec_suffix. unfold media_extensions in He.
      repeat (apply elem_of_cons in He as [->|He]; [by vm_compute|]).
      by apply elem_of_nil in He.
    + change (upper (pre ++ ext) = upper (pre ++ chars e)). by rewrite !upper_app, Hext.
Qed.

Lemma svg_test_spec (path : string) :
  RegExp.test svg_test path = true ↔ chars ".svg" `suffix_of` chars path.
Proof.
  unfold RegExp.test, svg_test. split.
  - intros H. apply exec_spec in H as (pre & s1 & s2 & E & H). cbn in H.
    destruct_denote; subst. exists pre. rewrite E. cbn in *. congruence.
  - intros [pre ->]. apply exec_suffix. by vm_compute.
Qed.

(** ** The steps of the hook *)

Lemma bind_normal {A B} (m : M A) (f : A → M B) h a h' :
  m h = (Normal a, h') → (m ≫= f) h = f a h'.
Proof. unfold mbind, M_bind. by intros ->. Qed.

Lemma alloc_fresh o h :
  ∃ l, alloc o h = (Normal l, <[l:=o]> h) ∧ h !! l = None.
Proof.
  exists (fresh (dom h)). split; [done|]. apply not_elem_of_dom, is_fresh.
Qed.

Lemma get_ref h l o k :
  h !! l = Some o → get (Ref l) k h = (Normal (default Undefined (props o !! k)), h).
Proof. intros H. unfold get, deref, mbind, M_bind. by rewrite H. Qed.

Lemma get_push_array h l o items :
  h !! l = Some o → props o !! "push" = None → kind_of o = Array items →
  get_push (Ref l) h = (Normal (ArrayPush l), h).
Proof.
  intros H Hp Hk. unfold get_push, deref, mbind, M_bind. by rewrite H, Hp, Hk.
Qed.

Lemma call_push h l o items v :
  h !! l = Some o → kind_of o = Array items →
  call (ArrayPush l) v h = (Normal (), <[l:=Object (Array (items ++ [v])) (props o)]> h).
Proof.
  intros H Hk. unfold call, deref, mbind, M_bind. by rewrite H, Hk.
Qed.

Lemma object_assign_ref h t s to from :
  h !! t = Some to → h !! s = Some from →
  object_assign (Ref t) s h =
  (Normal (Ref t), <[t:=Object (kind_of to) (props from ∪ props to)]> h).
Proof.
  intros Ht Hs. unfold object_assign, deref, store, mbind, M_bind. by rewrite Ht, Hs.
Qed.

(** Reading a rule back only follows references, so it reads the same
    rule on a larger heap. *)
Lemma read_use_item_mono (h1 h2 : heap) v u :
  h1 ⊆ h2 → read_use_item h1 v = Some u → read_use_item h2 v = Some u.
Proof.
  intros Hsub. destruct v as [| | |s|l]; simpl; try done.
  destruct (h1 !! l) as [o|] eqn:Ho; [|done].
  rewrite (lookup_weaken _ _ _ _ Ho Hsub). simpl.
  destruct (props o !! "loader" ≫= read_string) as [name|]; [|done]. simpl.
  destruct (props o !! "options" ≫= read_ref) as [lo|]; [|done]. simpl.
  destruct (h1 !! lo) as [oo|] eqn:Hoo; [|done].
  by rewrite (lookup_weaken _ _ _ _ Hoo Hsub).
Qed.

Lemma read_rule_mono (h1 h2 : heap) v r :
  h1 ⊆ h2 → read_rule h1 v = Some r → read_rule h2 v = Some r.
Proof.
  intros Hsub. unfold read_rule.
  destruct (read_ref v) as [l|]; [|done]. simpl.
  destruct (h1 !! l) as [o|] eqn:Ho; [|done].
  rewrite (lookup_weaken _ _ _ _ Ho Hsub). simpl.
  destruct (props o !! "test" ≫= read_ref) as [lt|]; [|done]. simpl.
  destruct (h1 !! lt) as [ot|] eqn:Hot; [|done].
  rewrite (lookup_weaken _ _ _ _ Hot Hsub). simpl.
  destruct (props o !! "use" ≫= read_ref) as [lu|]; [|done]. simpl.
  destruct (h1 !! lu) as [ou|] eqn:Hou; [|done].
  rewrite (lookup_weaken _ _ _ _ Hou Hsub). simpl.
  destruct (kind_of ot); try done. destruct (kind_of ou) as [|items| |]; try done.
  destruct (mapM (read_use_item h1) items) as [us|] eqn:Hus; [|done]. simpl.
  intros <-. apply mapM_Some in Hus.
  assert (mapM (read_use_item h2) items = Some us) as ->; [|done].
  apply mapM_Some. eapply Forall2_impl; [done|]. intros ??. by apply read_use_item_mono.
Qed.

Lemma lookup_update_all f (h : heap) l : update_all f h !! l = f l <$> h !! l.
Proof. unfold update_all. rewrite map_lookup_imap. by destruct (h !! l). Qed.

Lemma disjoint_update_all f (hn h : heap) : hn ##ₘ update_all f h ↔ hn ##ₘ h.
Proof.
  rewrite !map_disjoint_alt.
  split; intros H l; specialize (H l); rewrite lookup_update_all in *;
    destruct (h !! l); simpl in *; destruct H; auto; done.
Qed.

Lemma alloc_union o h :
  ∃ l, alloc o h = (Normal l, {[l := o]} ∪ h) ∧ {[l := o]} ##ₘ h.
Proof.
  destruct (alloc_fresh o h) as (l & E & Hl). exists l.
  rewrite <- insert_union_singleton_l. split; [done|]. by apply map_disjoint_singleton_l.
Qed.

Ltac alloc_step l H :=
  match goal with
  | |- context [ (alloc ?o ≫= _) ?h ] =>
      let E := fresh "E" in
      destruct (alloc_fresh o h) as (l & E & H);
      rewrite (bind_normal (alloc o) _ _ _ _ E); clear E
  | |- context [ alloc ?o ?h ] =>
      let E := fresh "E" in
      destruct (alloc_fresh o h) as (l & E & H);
      rewrite E; clear E
  end.

Ltac split_fresh :=
  repeat match goal with
  | H : <[_:=_]> _ !! _ = None |- _ => apply lookup_insert_None in H as [H ?]
  end.

Lemma file_rule_literal_spec h :
  ∃ l hn, file_rule_literal h = (Normal l, hn ∪ h) ∧ hn ##ₘ h ∧
          read_rule hn (Ref l) = Some file_rule.
Proof.
  unfold file_rule_literal, object_literal, array_literal, regexp_literal.
  alloc_step l1 H1. alloc_step l2 H2. alloc_step l3 H3. alloc_step l4 H4. alloc_step l5 H5.
  split_fresh.
  eexists l5, (<[l5:=_]> (<[l4:=_]> (<[l3:=_]> (<[l2:=_]> (<[l1:=_]> ∅))))).
  split_and!.
  - by rewrite <- !insert_union_l, (left_id_L ∅ (∪)).
  - rewrite !map_disjoint_insert_l. split_and!; try done. apply map_disjoint_empty_l.
  - unfold read_rule. simpl. simplify_map_eq. done.
Qed.

Lemma svg_rule_literal_spec h :
  ∃ l hn, svg_rule_literal h = (Normal l, hn ∪ h) ∧ hn ##ₘ h ∧
          read_rule hn (Ref l) = Some svg_rule.
Proof.
  unfold svg_rule_literal, object_literal, array_literal, regexp_literal.
  alloc_step l1 H1. alloc_step l2 H2. alloc_step l3 H3.
  split_fresh.
  eexists l3, (<[l3:=_]> (<[l2:=_]> (<[l1:=_]> ∅))).
  split_and!.
  - by rewrite <- !insert_union_l, (left_id_L ∅ (∪)).
  - rewrite !map_disjoint_insert_l. split_and!; try done. apply map_disjoint_empty_l.
  - unfold read_rule. simpl. simplify_map_eq. done.
Qed.

Section evolve.
Variables (h : heap) (r a : loc).

Lemma evolved_start : h = evolved h r a false [] ∅.
Proof.
  unfold evolved. rewrite (left_id_L ∅ (∪)). apply map_eq. intros l.
  rewrite lookup_update_all. destruct (h !! l) as [[k p]|]; [|done]. simpl. f_equal.
  unfold after_webpack. simpl. f_equal. destruct k; try done.
  rewrite app_nil_r. by case_decide.
Qed.

Lemma evolved_lookup al new hn l o :
  hn ##ₘ h → h !! l = Some o → evolved h r a al new hn !! l = Some (after_webpack al r a new l o).
Proof.
  intros D H. unfold evolved. rewrite lookup_union_r.
  - by rewrite lookup_update_all, H.
  - by eapply map_disjoint_Some_r.
Qed.

Lemma evolved_alloc al new hn hn' :
  hn ##ₘ h → hn' ##ₘ evolved h r a al new hn →
  hn' ∪ evolved h r a al new hn = evolved h r a al new (hn' ∪ hn) ∧ hn' ∪ hn ##ₘ h ∧
  hn ⊆ hn' ∪ hn ∧ hn' ⊆ hn' ∪ hn.
Proof.
  unfold evolved. intros D D'. apply map_disjoint_union_r in D' as [D1 D2].
  apply disjoint_update_all in D2. split_and!.
  - by rewrite (assoc_L (∪)).
  - by apply map_disjoint_union_l.
  - by apply map_union_subseteq_r.
  - apply map_union_subseteq_l.
Qed.

Lemma evolved_push al new hn o items v :
  hn ##ₘ h → h !! r = Some o → kind_of o = Array items →
  <[r:=Object (Array ((items ++ new) ++ [v])) (props (after_webpack al r a new r o))]>
    (evolved h r a al new hn) = evolved h r a al (new ++ [v]) hn.
Proof.
  intros D H Hk. unfold evolved. rewrite insert_union_r by by eapply map_disjoint_Some_r.
  f_equal. apply map_eq. intros l. rewrite lookup_insert, !lookup_update_all.
  case_decide as E.
  - subst l. rewrite H. simpl. f_equal. unfold after_webpack. rewrite Hk. simpl.
    rewrite decide_True by done. by rewrite (assoc_L (++)).
  - destruct (h !! l) as [o'|]; [|done]. simpl. f_equal. unfold after_webpack.
    f_equal. destruct (kind_of o'); try done. by rewrite !decide_False by done.
Qed.

Lemma evolved_assign new hn o :
  hn ##ₘ h → h !! a = Some o →
  <[a:=Object (kind_of (after_webpack false r a new a o))
              (preact_aliases ∪ props (after_webpack false r a new a o))]>
    (evolved h r a false new hn) = evolved h r a true new hn.
Proof.
  intros D H. unfold evolved. rewrite insert_union_r by by eapply map_disjoint_Some_r.
  f_equal. apply map_eq. intros l. rewrite lookup_insert, !lookup_update_all.
  case_decide as E.
  - subst l. rewrite H. simpl. f_equal. unfold after_webpack. simpl.
    by rewrite bool_decide_eq_true_2.
  - destruct (h !! l) as [o'|]; [|done]. simpl. f_equal. unfold after_webpack. simpl.
    by rewrite bool_decide_eq_false_2.
Qed.
End evolve.

Lemma webpack_spec h c options r items a :
  rules_of h c = Some r →
  items_at h r = Some items →
  own_push h r = None →
  (production options = true → alias_of h c = Some a ∧ is_Some (h !! a)) →
  ∃ hn v1 v2,
    webpack (Ref c) options h =
      (Normal (Ref c),
       hn ∪ update_all (after_webpack (production options) r a [v1; v2]) h) ∧
    hn ##ₘ h ∧
    read_rule hn v1 = Some file_rule ∧
    read_rule hn v2 = Some svg_rule.
Proof.
  unfold rules_of, items_at, own_push. intros Hr Hi Hp Ha.
  destruct (h !! c) as [oc|] eqn:Hc; [|done]. simpl in Hr.
  destruct (props oc !! "module") as [[| | | |m]|] eqn:Hm; try done. simpl in Hr.
  destruct (h !! m) as [om|] eqn:Hom; [|done]. simpl in Hr.
  destruct (props om !! "rules") as [[| | | |r']|] eqn:Hrr; try done. simpl in Hr.
  injection Hr as ->.
  destruct (h !! r) as [[kr pr]|] eqn:Hor; [|done]. simpl in Hi, Hp.
  destruct kr as [|items'| |]; try done. injection Hi as ->.
  enough (∃ hn v1 v2,
    webpack (Ref c) options (evolved h r a false [] ∅) =
      (Normal (Ref c), evolved h r a (production options) [v1; v2] hn) ∧
    hn ##ₘ h ∧ read_rule hn v1 = Some file_rule ∧ read_rule hn v2 = Some svg_rule)
    as Hw by by rewrite <- evolved_start in Hw.
  unfold webpack.
  (* the first push *)
  assert (∅ ##ₘ h) as D0 by apply map_disjoint_empty_l.
  erewrite bind_normal; [|by eapply get_ref, evolved_lookup]. cbn [after_webpack props andb].
  rewrite Hm. cbn [default from_option id].
  erewrite bind_normal; [|by eapply get_ref, evolved_lookup]. cbn [after_webpack props andb].
  rewrite Hrr. cbn [default from_option id].
  erewrite bind_normal; [|eapply get_push_array; [by eapply evolved_lookup|done|]].
  2:{ simpl. by rewrite decide_True. }
  destruct (file_rule_literal_spec (evolved h r a false [] ∅)) as (l1 & hn1 & E1 & D1 & R1).
  erewrite bind_normal; [|exact E1]. clear E1.
  destruct (evolved_alloc h r a _ _ _ _ D0 D1) as (-> & D1' & S01 & S1).
  erewrite bind_normal; [|eapply call_push; [by eapply evolved_lookup|]].
  2:{ simpl. by rewrite decide_True. }
  rewrite (evolved_push h r a false [] _ _ items) by done. cbn [app].
  (* the second push *)
  erewrite bind_normal; [|by eapply get_ref, evolved_lookup]. cbn [after_webpack props andb].
  rewrite Hm. cbn [default from_option id].
  erewrite bind_normal; [|by eapply get_ref, evolved_lookup]. cbn [after_webpack props andb].
  rewrite Hrr. cbn [default from_option id].
  erewrite bind_normal; [|eapply get_push_array; [by eapply evolved_lookup|done|]].
  2:{ simpl. by rewrite decide_True. }
  destruct (svg_rule_literal_spec (evolved h r a false [Ref l1] (hn1 ∪ ∅)))
    as (l2 & hn2 & E2 & D2 & R2).
  erewrite bind_normal; [|exact E2]. clear E2.
  destruct (evolved_alloc h r a _ _ _ _ D1' D2) as (-> & D2' & S12 & S2).
  erewrite bind_normal; [|eapply call_push; [by eapply evolved_lookup|]].
  2:{ simpl. by rewrite decide_True. }
  rewrite (evolved_push h r a false [Ref l1] _ _ items) by done. cbn [app].
  assert (read_rule (hn2 ∪ (hn1 ∪ ∅)) (Ref l1) = Some file_rule) as R1'.
  { eapply read_rule_mono; [|done]. by etrans. }
  assert (read_rule (hn2 ∪ (hn1 ∪ ∅)) (Ref l2) = Some svg_rule) as R2'.
  { by eapply read_rule_mono. }
  (* the aliases *)
  change (negb (dev options) && negb (isServer options)) with (production options).
  destruct (production options) eqn:Hprod.
  - destruct Ha as [Ha [oa Hoa]]; [done|]. unfold alias_of in Ha. rewrite Hc in Ha.
    simpl in Ha.
    destruct (props oc !! "resolve") as [[| | | |s]|] eqn:Hs; try done. simpl in Ha.
    destruct (h !! s) as [os|] eqn:Hos; [|done]. simpl in Ha.
    destruct (props os !! "alias") as [[| | | |a']|] eqn:Hal; try done. simpl in Ha.
    injection Ha as ->.
    destruct (alloc_union (Object Plain preact_aliases)
                (evolved h r a false [Ref l1; Ref l2] (hn2 ∪ (hn1 ∪ ∅)))) as (ls & Es & Ds).
    destruct (evolved_alloc h r a _ _ _ _ D2' Ds) as (EH & Ds' & S2s & Ss).
    rewrite EH in Es. clear EH.
    eexists _, (Ref l1), (Ref l2). split_and!;
      [|exact Ds'|by eapply read_rule_mono; [exact S2s|]..].
    erewrite bind_normal; [reflexivity|].
    erewrite bind_normal; [|by eapply get_ref, evolved_lookup]. cbn [after_webpack props andb].
    rewrite Hs. cbn [default from_option id].
    erewrite bind_normal; [|by eapply get_ref, evolved_lookup]. cbn [after_webpack props andb].
    rewrite Hal. cbn [default from_option id].
    unfold object_literal. erewrite bind_normal; [|exact Es].
    erewrite bind_normal; [reflexivity|].
    erewrite object_assign_ref; [|by eapply evolved_lookup|].
    2:{ unfold evolved. apply lookup_union_Some_l, lookup_union_Some_l, lookup_singleton_eq. }
    by rewrite evolved_assign.
  - eexists _, (Ref l1), (Ref l2). split_and!; [reflexivity|done..].
Qed.

Lemma file_test_other_extension name ext :
  Forall (λ e, ¬ upper (chars e) `suffix_of` upper (chars ext) ∧
               ¬ upper (chars ext) `suffix_of` upper (chars e)) media_extensions →
  RegExp.test file_test (name +:+ ext) = false.
Proof.
  intros HF. apply not_true_is_false. intros H. apply file_test_spec in H.
  destruct H as (e & pre & x & He & E & Hx).
  rewrite chars_app in E. apply (f_equal upper) in E. rewrite !upper_app, Hx in E.
  rewrite Forall_forall in HF. destruct (HF e He) as [N1 N2].
  destruct (suffix_weak_total (upper (chars e)) (upper (chars ext))
              (upper (chars name) ++ upper (chars ext))) as [S|S]; [| |done..].
  - exists (upper pre). done.
  - by apply suffix_app_r.
Qed.

Lemma svg_test_other_extension name ext :
  ¬ chars ".svg" `suffix_of` chars ext → ¬ chars ext `suffix_of` chars ".svg" →
  RegExp.test svg_test (name +:+ ext) = false.
Proof.
  intros N1 N2. apply not_true_is_false. intros H. apply svg_test_spec in H.
  rewrite chars_app in H.
  destruct (suffix_weak_total (chars ".svg") (chars ext) (chars name ++ chars ext))
    as [S|S]; [done| |done..].
  by apply suffix_app_r.
Qed.

Lemma file_test_rejects_svg name : RegExp.test file_test (name +:+ ".svg") = false.
Proof.
  apply file_test_other_extension. apply (bool_decide_unpack _). by vm_compute.
Qed.

Lemma lookup_redirect_spec (table : list Redirect) path r :
  NoDup (source <$> table) →
  lookup_redirect table path = Some r ↔ r ∈ table ∧ source r = path.
Proof.
  unfold lookup_redirect. induction table as [|x table IH]; simpl; intros ND.
  - split; [done|]. intros [H _]. by apply elem_of_nil in H.
  - apply NoDup_cons in ND as [Hx ND]. case_bool_decide as E.
    + split.
      * intros [= <-]. split; [left|done].
      * intros [Hr Hs]. apply elem_of_cons in Hr as [->|Hr]; [done|].
        destruct Hx. rewrite E, <- Hs. apply list_elem_of_fmap. eauto.
    + rewrite IH by done. split.
      * intros [Hr Hs]. split; [by right|done].
      * intros [Hr Hs]. apply elem_of_cons in Hr as [->|Hr]; [done|]. done.
Qed.

Lemma respond_permutation (t1 t2 : list Redirect) path :
  NoDup (source <$> t1) → t1 ≡ₚ t2 → respond t1 path = respond t2 path.
Proof.
  intros ND HP. unfold respond. f_equal.
  assert (NoDup (source <$> t2)) as ND2 by by rewrite <- HP.
  apply option_eq. intros r. rewrite !lookup_redirect_spec by done. by rewrite HP.
Qed.

(** ** The definitions on concrete inputs *)

Example file_test_matches_jpeg :
  RegExp.test file_test "/app/public/static/images/avatar.jpeg" = true.
Proof. by vm_compute. Qed.

Example file_test_matches_mixed_case :
  RegExp.test file_test "/app/public/static/images/avatar.JpG" = true.
Proof. by vm_compute. Qed.

Example file_test_needs_the_end :
  RegExp.test file_test "/app/public/archive.png.txt" = false.
Proof. by vm_compute. Qed.

Example file_test_needs_the_dot : RegExp.test file_test "/app/public/notpng" = false.
Proof. by vm_compute. Qed.

Example svg_test_matches_svg : RegExp.test svg_test "/app/data/logo.svg" = true.
Proof. by vm_compute. Qed.

Example svg_test_is_case_sensitive : RegExp.test svg_test "/app/data/logo.SVG" = false.
Proof. by vm_compute. Qed.

Example analyzer_is_off_without_the_variable :
  analyzer_options ∅ = {| enabled := false |}.
Proof. reflexivity. Qed.

Example analyzer_is_on_with_true :
  analyzer_options {[ "ANALYZE" := "true" ]} = {| enabled := true |}.
Proof. reflexivity. Qed.

Example analyzer_pushes_its_plugin_when_enabled :
  length <$> items_at
    (snd (Next.webpack (module_exports bundle_analyzer {[ "ANALYZE" := "true" ]})
            (Ref 1%positive) development example_heap)) 7%positive = Some 1.
Proof. by vm_compute. Qed.

Example respond_to_a_moved_post :
  respond redirects "/blog/openid-connect-dotnet-5" =
  Some {| location := "https://minimalizt.dev/blog/openid-connect-dotnet-5/";
          moved_permanently := true |}.
Proof. reflexivity. Qed.

Example respond_to_another_path : respond redirects "/blog" = None.
Proof. reflexivity. Qed.

Example webpack_appends_two_rules :
  length <$> items_at
    (snd (webpack (Ref 1%positive) development example_heap)) 3%positive = Some 3.
Proof. by vm_compute. Qed.

Example webpack_in_development_keeps_the_aliases :
  props_at (snd (webpack (Ref 1%positive) development example_heap)) 5%positive =
  Some {[ "next" := Str "/app/node_modules/next" ]}.
Proof. by vm_compute. Qed.

Example webpack_in_client_production_adds_react :
  props_at (snd (webpack (Ref 1%positive) client_production example_heap)) 5%positive
    ≫= (.!! "react") = Some (Str "preact/compat").
Proof. by vm_compute. Qed.

(** Without [config.module] the first statement throws, and nothing has
    been written. *)
Example webpack_without_module :
  webpack (Ref 1%positive) development {[ 1%positive := Object Plain ∅ ]} =
  (ThrowTypeError, {[ 1%positive := Object Plain ∅ ]}).
Proof. by vm_compute. Qed.

Example read_post_rejects_another_field :
  read_post ["---"; "title: 'A post'"; "date: '2021-05-06'"; "tags: ['dotnet']";
             "draft: false"; "summary: 'A summary'"; "layout: 'PostSimple'"; "---";
             "Text"] = None.
Proof. by vm_compute. Qed.

Example read_post_rejects_a_missing_field :
  read_post ["---"; "title: 'A post'"; "date: '2021-05-06'"; "tags: ['dotnet']";
             "draft: false"; "---"; "Text"] = None.
Proof. by vm_compute. Qed.

Example read_post_reads_automapper :
  read_post (set_up_automapper_dotnet_core ++ [""; "## Why use AutoMapper?"]) =
  Some {| title := "Simple AutoMapper setup in .NET 5";
          date := "2021-05-24";
          tags := ["asp-net-core"; "dotnet"; "automapper"];
          draft := false;
          summary := "Learn one of the simplest ways to configure AutoMapper in .NET 5";
          body := [""; "## Why use AutoMapper?"] |}.
Proof. by vm_compute. Qed.

(** The hook on a configuration of the expected shape. *)
Lemma webpack_run h c options r items a pa :
  config_shape h c r items a pa →
  ∃ h' v1 v2,
    webpack (Ref c) options h = (Normal (Ref c), h') ∧
    read_rule h' v1 = Some file_rule ∧
    read_rule h' v2 = Some svg_rule ∧
    items_at h' r = Some (items ++ [v1; v2]) ∧
    props_at h' a = Some (if production options then preact_aliases ∪ pa else pa) ∧
    ∀ l o, h !! l = Some o →
           h' !! l = Some (after_webpack (production options) r a [v1; v2] l o).
Proof.
  intros (Hr & Hi & Hp & Ha & Hpa).
  assert (is_Some (h !! a)) as Hsa.
  { unfold props_at in Hpa. destruct (h !! a); [by eexists|done]. }
  destruct (webpack_spec h c options r items a Hr Hi Hp (λ _, conj Ha Hsa))
    as (hn & v1 & v2 & E & D & R1 & R2).
  eexists _, v1, v2. split; [exact E|].
  assert (∀ l o, h !! l = Some o →
    (hn ∪ update_all (after_webpack (production options) r a [v1; v2]) h) !! l =
    Some (after_webpack (production options) r a [v1; v2] l o)) as HL.
  { intros l o Hl. by apply (evolved_lookup h r a). }
  split_and!; [| | | |exact HL].
  - eapply read_rule_mono; [apply map_union_subseteq_l|done].
  - eapply read_rule_mono; [apply map_union_subseteq_l|done].
  - unfold items_at in *. destruct (h !! r) as [o|] eqn:Ho; [|done].
    rewrite (HL _ _ Ho). simpl in *. destruct (kind_of o); try done.
    rewrite decide_True by done. by injection Hi as ->.
  - unfold props_at in *. destruct (h !! a) as [o|] eqn:Ho; [|done].
    rewrite (HL _ _ Ho). simpl in *. injection Hpa as ->.
    rewrite bool_decide_eq_true_2 by done. by rewrite andb_true_r.
Qed.

Lemma production_spec options :
  production options = true ↔ dev options = false ∧ isServer options = false.
Proof.
  unfold production. destruct (dev options), (isServer options); simpl;
    split; try done; intros [??]; done.
Qed.

(** ** The properties that the specification states *)

(** C1.  The list returned by [redirects] has exactly 8 entries.  Each has
    its permanent flag set and an absolute URL on https://minimalizt.dev as
    destination, and a request for its source path is answered with a
    permanent redirect to exactly that destination. *)
Theorem redirects_are_permanent :
  length redirects = 8 ∧
  Forall (λ r, permanent r = true ∧
               String.prefix "https://minimalizt.dev/" (destination r) = true ∧
               respond redirects (source r) =
                 Some {| location := destination r; moved_permanently := true |})
         redirects.
Proof.
  split; [reflexivity|]. unfold redirects at 2.
  repeat (apply Forall_cons; split; [by vm_compute|]). by apply Forall_nil.
Qed.

(** C2.  The [enabled] option passed to the analyzer package is true if
    and only if the environment variable ANALYZE is the string "true".
    With that value the module exports what the package makes of the
    configuration as written when it is called with [enabled] true.  For
    any other value, or without the variable, the module exports what the
    package makes of it when called with [enabled] false, and with a
    package that leaves a configuration alone when it is disabled, that is
    the configuration as written. *)
Theorem analyzer_enabled_iff_ANALYZE_true
    (bundleAnalyzer : AnalyzerOptions → Next.config → Next.config)
    (env : gmap string string) :
  (∀ c, bundleAnalyzer {| enabled := false |} c = c) →
  (enabled (analyzer_options env) = true ↔ env !! "ANALYZE" = Some "true") ∧
  (env !! "ANALYZE" = Some "true" →
   module_exports bundleAnalyzer env = bundleAnalyzer {| enabled := true |} nextConfig) ∧
  (env !! "ANALYZE" ≠ Some "true" →
   analyzer_options env = {| enabled := false |} ∧
   module_exports bundleAnalyzer env = bundleAnalyzer {| enabled := false |} nextConfig ∧
   module_exports bundleAnalyzer env = nextConfig).
Proof.
  intros Hoff. unfold module_exports, withBundleAnalyzer, analyzer_options. simpl.
  split_and!.
  - apply bool_decide_eq_true.
  - intros Heq. by rewrite bool_decide_eq_true_2.
  - intros Hne. rewrite bool_decide_eq_false_2 by done. by rewrite Hoff.
Qed.

Lemma analyzer_enabled_iff_ANALYZE_true_witness :
  module_exports bundle_analyzer {[ "ANALYZE" := "true" ]} =
    bundle_analyzer {| enabled := true |} nextConfig ∧
  analyzer_options {[ "ANALYZE" := "TRUE" ]} = {| enabled := false |} ∧
  module_exports bundle_analyzer {[ "ANALYZE" := "TRUE" ]} =
    bundle_analyzer {| enabled := false |} nextConfig ∧
  module_exports bundle_analyzer {[ "ANALYZE" := "TRUE" ]} = nextConfig.
Proof.
  split.
  - apply (analyzer_enabled_iff_ANALYZE_true bundle_analyzer {[ "ANALYZE" := "true" ]}).
    + intros c. reflexivity.
    + reflexivity.
  - apply (analyzer_enabled_iff_ANALYZE_true bundle_analyzer {[ "ANALYZE" := "TRUE" ]}).
    + intros c. reflexivity.
    + vm_compute. discriminate.
Defined.

(** C3.  For every file whose name ends with .png, .jpg, .jpeg, .gif or
    .mp4, the first rule that the hook appends to [config.module.rules]
    matches it, and that rule routes it to file-loader with the options
    name 'static/media/[name].[hash].[ext]' and publicPath '/_next'. *)
Theorem media_files_use_file_loader h c options r items a pa name ext :
  config_shape h c r items a pa →
  ext ∈ media_extensions →
  ∃ h' v v' rule,
    webpack (Ref c) options h = (Normal (Ref c), h') ∧
    items_at h' r = Some (items ++ [v; v']) ∧
    read_rule h' v = Some rule ∧
    rule_matches rule (name +:+ ext) = true ∧
    use rule = [LoaderWithOptions "file-loader"
                  {[ "publicPath" := Str "/_next";
                     "name" := Str "static/media/[name].[hash].[ext]" ]}].
Proof.
  intros Hs He.
  destruct (webpack_run h c options r items a pa Hs) as (h' & v1 & v2 & E & R1 & R2 & Hi & _).
  exists h', v1, v2, file_rule. split_and!; try done.
  apply file_test_spec. exists ext, (chars name), (chars ext).
  split_and!; [done|apply chars_app|done].
Qed.

Lemma media_files_use_file_loader_witness :
  ∃ h' v v' rule,
    webpack (Ref 1%positive) client_production example_heap = (Normal (Ref 1%positive), h') ∧
    items_at h' 3%positive = Some ([Ref 6%positive] ++ [v; v']) ∧
    read_rule h' v = Some rule ∧
    rule_matches rule ("/app/public/static/images/avatar" +:+ ".jpeg") = true ∧
    use rule = [LoaderWithOptions "file-loader"
                  {[ "publicPath" := Str "/_next";
                     "name" := Str "static/media/[name].[hash].[ext]" ]}].
Proof.
  apply (media_files_use_file_loader example_heap 1%positive client_production 3%positive
           [Ref 6%positive] 5%positive {[ "next" := Str "/app/node_modules/next" ]}).
  - repeat split; reflexivity.
  - unfold media_extensions. set_solver.
Defined.

(** C4.  For every file whose name ends with '.svg', the second rule that
    the hook appends matches it and routes it to @svgr/webpack, and the
    test of the first, the file-loader rule, does not match it. *)
Theorem svg_files_use_svgr h c options r items a pa name :
  config_shape h c r items a pa →
  ∃ h' v1 v2 rule1 rule2,
    webpack (Ref c) options h = (Normal (Ref c), h') ∧
    items_at h' r = Some (items ++ [v1; v2]) ∧
    read_rule h' v1 = Some rule1 ∧
    read_rule h' v2 = Some rule2 ∧
    rule_matches rule2 (name +:+ ".svg") = true ∧
    use rule2 = [Loader "@svgr/webpack"] ∧
    rule_matches rule1 (name +:+ ".svg") = false ∧
    use rule1 = [LoaderWithOptions "file-loader" file_loader_options].
Proof.
  intros Hs.
  destruct (webpack_run h c options r items a pa Hs) as (h' & v1 & v2 & E & R1 & R2 & Hi & _).
  exists h', v1, v2, file_rule, svg_rule. split_and!; try done.
  - apply svg_test_spec. rewrite chars_app. by apply suffix_app_r.
  - apply file_test_rejects_svg.
Qed.

Lemma svg_files_use_svgr_witness :
  ∃ h' v1 v2 rule1 rule2,
    webpack (Ref 1%positive) development example_heap = (Normal (Ref 1%positive), h') ∧
    items_at h' 3%positive = Some ([Ref 6%positive] ++ [v1; v2]) ∧
    read_rule h' v1 = Some rule1 ∧
    read_rule h' v2 = Some rule2 ∧
    rule_matches rule2 ("/app/data/logo" +:+ ".svg") = true ∧
    use rule2 = [Loader "@svgr/webpack"] ∧
    rule_matches rule1 ("/app/data/logo" +:+ ".svg") = false ∧
    use rule1 = [LoaderWithOptions "file-loader" file_loader_options].
Proof.
  apply (svg_files_use_svgr example_heap 1%positive development 3%positive
           [Ref 6%positive] 5%positive {[ "next" := Str "/app/node_modules/next" ]}).
  repeat split; reflexivity.
Defined.

(** C5.  The hook adds the four Preact aliases to [config.resolve.alias]
    if and only if [dev] is false and [isServer] is false: in that case the
    alias object gets the four keys, otherwise it keeps the properties it
    had.  For a configuration in which [react] did not resolve to Preact
    before, all four aliases are there afterwards exactly in a client
    production build, and in a development build [react] still does not
    resolve to Preact. *)
Theorem preact_aliases_iff_client_production h c options r items a pa :
  config_shape h c r items a pa →
  pa !! "react" ≠ Some (Str "preact/compat") →
  ∃ h' pa',
    webpack (Ref c) options h = (Normal (Ref c), h') ∧
    props_at h' a = Some pa' ∧
    (dev options = false ∧ isServer options = false → pa' = preact_aliases ∪ pa) ∧
    (¬ (dev options = false ∧ isServer options = false) → pa' = pa) ∧
    (preact_aliases ⊆ pa' ↔ dev options = false ∧ isServer options = false) ∧
    (dev options = true → pa' !! "react" ≠ Some (Str "preact/compat")).
Proof.
  intros Hs Hreact.
  destruct (webpack_run h c options r items a pa Hs)
    as (h' & v1 & v2 & E & _ & _ & _ & Hpa & _).
  eexists h', _. split; [exact E|]. split; [exact Hpa|].
  pose proof (production_spec options) as Hprod.
  destruct (production options).
  - assert (dev options = false ∧ isServer options = false) as Hd by by apply Hprod.
    split_and!.
    + done.
    + intros N. by destruct N.
    + split; [done|]. intros _. apply map_union_subseteq_l.
    + intros Hdev. destruct Hd as [Hd _]. congruence.
  - assert (¬ (dev options = false ∧ isServer options = false)) as Hd.
    { intros H. by apply Hprod in H. }
    split_and!.
    + intros H. by destruct Hd.
    + done.
    + split; [|intros H; by destruct Hd]. intros Hsub. destruct Hreact.
      eapply lookup_weaken; [|exact Hsub]. done.
    + done.
Qed.

Lemma preact_aliases_iff_client_production_witness :
  ∃ h' pa',
    webpack (Ref 1%positive) development example_heap = (Normal (Ref 1%positive), h') ∧
    props_at h' 5%positive = Some pa' ∧
    (dev development = false ∧ isServer development = false →
     pa' = preact_aliases ∪ {[ "next" := Str "/app/node_modules/next" ]}) ∧
    (¬ (dev development = false ∧ isServer development = false) →
     pa' = {[ "next" := Str "/app/node_modules/next" ]}) ∧
    (preact_aliases ⊆ pa' ↔ dev development = false ∧ isServer development = false) ∧
    (dev development = true → pa' !! "react" ≠ Some (Str "preact/compat")).
Proof.
  apply (preact_aliases_iff_client_production example_heap 1%positive development
           3%positive [Ref 6%positive] 5%positive).
  - repeat split; reflexivity.
  - vm_compute. discriminate.
Defined.

(** C6.  Every source of the table is a literal path, without parameter,
    wildcard or pattern, and no two entries have the same source; so the
    answer to a request does not depend on the order of the entries. *)
Theorem redirect_sources_literal_and_distinct :
  Forall (λ r, is_literal_path (source r) = true) redirects ∧
  NoDup (source <$> redirects) ∧
  ∀ table path, table ≡ₚ redirects → respond table path = respond redirects path.
Proof.
  assert (NoDup (source <$> redirects)) as ND.
  { apply (bool_decide_unpack _). by vm_compute. }
  split_and!; [|done|].
  - unfold redirects. repeat (apply Forall_cons; split; [by vm_compute|]). by apply Forall_nil.
  - intros table path HP. symmetry. by apply respond_permutation.
Qed.

Lemma redirect_sources_literal_and_distinct_witness :
  respond (reverse redirects) "/blog/openid-connect-dotnet-5" =
  respond redirects "/blog/openid-connect-dotnet-5".
Proof.
  apply redirect_sources_literal_and_distinct. apply reverse_Permutation.
Defined.

(** C7.  Every post file has a front matter with exactly the fields
    title, date, tags, draft and summary, followed by its body, and reads
    as a post record whose body is what follows the front matter. *)
Theorem blog_posts_have_the_post_shape (rest : list string) :
  Forall (λ head,
    ∃ fields post,
      front_matter (head ++ rest) = Some (fields, rest) ∧
      fields.*1 = post_fields ∧
      read_post (head ++ rest) = Some post ∧
      body post = rest) blog_posts.
Proof.
  unfold blog_posts.
  repeat (apply Forall_cons; split;
          [eexists _, _; split_and!; [by vm_compute| by vm_compute | by vm_compute | done]|]).
  by apply Forall_nil.
Qed.

(** C8.  The destination of every entry is "https://minimalizt.dev",
    followed by the source path, followed by "/". *)
Theorem destination_is_new_domain_with_source :
  Forall (λ r, destination r = "https://minimalizt.dev" +:+ source r +:+ "/") redirects.
Proof.
  unfold redirects. repeat (apply Forall_cons; split; [reflexivity|]). by apply Forall_nil.
Qed.

(** C9.  The test of the file-loader rule has the case-insensitive flag
    and the test of the svg rule has not: a name whose extension is one of
    the five in any mix of cases, such as '.PNG' or '.JPG', matches the
    file-loader rule, and a name that ends in '.SVG' matches neither test. *)
Theorem file_test_ignores_case_svg_test_does_not name e ext :
  e ∈ media_extensions →
  upper (chars ext) = upper (chars e) →
  RegExp.ignoreCase file_test = true ∧
  RegExp.ignoreCase svg_test = false ∧
  RegExp.test file_test (name +:+ ext) = true ∧
  RegExp.test svg_test (name +:+ ".SVG") = false ∧
  RegExp.test file_test (name +:+ ".SVG") = false.
Proof.
  intros He Hext. split_and!; try done.
  - apply file_test_spec. exists e, (chars name), (chars ext).
    split_and!; [done|apply chars_app|done].
  - apply svg_test_other_extension; apply (bool_decide_unpack _); by vm_compute.
  - apply file_test_other_extension. apply (bool_decide_unpack _). by vm_compute.
Qed.

Lemma file_test_ignores_case_svg_test_does_not_witness :
  RegExp.ignoreCase file_test = true ∧
  RegExp.ignoreCase svg_test = false ∧
  RegExp.test file_test ("/app/public/static/images/logo" +:+ ".PNG") = true ∧
  RegExp.test svg_test ("/app/public/static/images/logo" +:+ ".SVG") = false ∧
  RegExp.test file_test ("/app/public/static/images/logo" +:+ ".SVG") = false.
Proof.
  apply (file_test_ignores_case_svg_test_does_not "/app/public/static/images/logo"
           ".png" ".PNG").
  - unfold media_extensions. set_solver.
  - reflexivity.
Defined.

(** C10.  The hook returns the reference it was given.  On the heap it
    appends exactly two rules, the file-loader rule and the svgr rule, to
    the rules array behind the items that were there, in their order; when
    [dev] and [isServer] are both false it sets the four aliases on the
    alias object; every other object is as it was, the alias object is
    still the kind of object it was, and the rules array has the
    properties it had. *)
Theorem webpack_changes_only_rules_and_aliases h c options r items a pa :
  config_shape h c r items a pa →
  ∃ h' v1 v2,
    webpack (Ref c) options h = (Normal (Ref c), h') ∧
    items_at h' r = Some (items ++ [v1; v2]) ∧
    read_rule h' v1 = Some file_rule ∧
    read_rule h' v2 = Some svg_rule ∧
    props_at h' a = Some (if negb (dev options) && negb (isServer options)
                          then preact_aliases ∪ pa else pa) ∧
    (∀ l o, h !! l = Some o → l ≠ r →
            (dev options = false ∧ isServer options = false → l ≠ a) →
            h' !! l = Some o) ∧
    (∀ l o, h !! l = Some o → l ≠ r → kind_of <$> h' !! l = Some (kind_of o)) ∧
    (∀ l o, h !! l = Some o →
            (dev options = false ∧ isServer options = false → l ≠ a) →
            props_at h' l = Some (props o)).
Proof.
  intros Hs.
  destruct (webpack_run h c options r items a pa Hs)
    as (h' & v1 & v2 & E & R1 & R2 & Hi & Hpa & HL).
  exists h', v1, v2. split_and!; try done.
  - intros l o Hl Hr Ha. rewrite (HL _ _ Hl). f_equal. destruct o as [k p].
    unfold after_webpack. simpl. f_equal.
    + destruct k; try done. by rewrite decide_False.
    + destruct (production options) eqn:Hp; [|done].
      apply production_spec in Hp. by rewrite bool_decide_eq_false_2 by auto.
  - intros l o Hl Hr. rewrite (HL _ _ Hl). simpl. f_equal.
    destruct (kind_of o); try done. by rewrite decide_False.
  - intros l o Hl Ha. unfold props_at. rewrite (HL _ _ Hl). simpl. f_equal.
    destruct (production options) eqn:Hp; [|done].
    apply production_spec in Hp. by rewrite bool_decide_eq_false_2 by auto.
Qed.

Lemma webpack_changes_only_rules_and_aliases_witness :
  ∃ h' v1 v2,
    webpack (Ref 1%positive) client_production example_heap =
      (Normal (Ref 1%positive), h') ∧
    items_at h' 3%positive = Some ([Ref 6%positive] ++ [v1; v2]) ∧
    read_rule h' v1 = Some file_rule ∧
    read_rule h' v2 = Some svg_rule ∧
    props_at h' 5%positive =
      Some (if negb (dev client_production) && negb (isServer client_production)
            then preact_aliases ∪ {[ "next" := Str "/app/node_modules/next" ]}
            else {[ "next" := Str "/app/node_modules/next" ]}) ∧
    (∀ l o, example_heap !! l = Some o → l ≠ 3%positive →
            (dev client_production = false ∧ isServer client_production = false →
             l ≠ 5%positive) →
            h' !! l = Some o) ∧
    (∀ l o, example_heap !! l = Some o → l ≠ 3%positive →
            kind_of <$> h' !! l = Some (kind_of o)) ∧
    (∀ l o, example_heap !! l = Some o →
            (dev client_production = false ∧ isServer client_production = false →
             l ≠ 5%positive) →
            props_at h' l = Some (props o)).
Proof.
  apply (webpack_changes_only_rules_and_aliases example_heap 1%positive client_production
           3%positive [Ref 6%positive] 5%positive).
  repeat split; reflexivity.
Defined.

(** * Further properties of next.config.js *)

(** ** Auxiliary facts *)

Lemma upper_drop n x : upper (drop n x) = drop n (upper x).
Proof. apply fmap_drop. Qed.

Lemma chars_unchars x : chars (unchars x) = x.
Proof. apply list_ascii_of_string_of_list_ascii. Qed.

Lemma unchars_chars s : unchars (chars s) = s.
Proof. apply string_of_list_ascii_of_string. Qed.

Lemma get_nullish {A} v k (f : value → M A) h :
  nullish v = true → (get v k ≫= f) h = (ThrowTypeError, h).
Proof. by destruct v. Qed.

Lemma get_push_nullish {A} v (f : callee → M A) h :
  nullish v = true → (get_push v ≫= f) h = (ThrowTypeError, h).
Proof. by destruct v. Qed.

(** The hook up to its last statement: both rules are on the array. *)
Lemma webpack_pushes h c options r items a :
  rules_of h c = Some r →
  items_at h r = Some items →
  own_push h r = None →
  ∃ hn v1 v2,
    hn ##ₘ h ∧
    read_rule hn v1 = Some file_rule ∧
    read_rule hn v2 = Some svg_rule ∧
    webpack (Ref c) options h =
      (assign_aliases (Ref c) options ≫= λ _, mret (Ref c))
        (evolved h r a false [v1; v2] hn).
Proof.
  unfold rules_of, items_at, own_push. intros Hr Hi Hp.
  destruct (h !! c) as [oc|] eqn:Hc; [|done]. simpl in Hr.
  destruct (props oc !! "module") as [[| | | |m]|] eqn:Hm; try done. simpl in Hr.
  destruct (h !! m) as [om|] eqn:Hom; [|done]. simpl in Hr.
  destruct (props om !! "rules") as [[| | | |r']|] eqn:Hrr; try done. simpl in Hr.
  injection Hr as ->.
  destruct (h !! r) as [[kr pr]|] eqn:Hor; [|done]. simpl in Hi, Hp.
  destruct kr as [|items'| |]; try done. injection Hi as ->.
  enough (∃ hn v1 v2,
    hn ##ₘ h ∧ read_rule hn v1 = Some file_rule ∧ read_rule hn v2 = Some svg_rule ∧
    webpack (Ref c) options (evolved h r a false [] ∅) =
      (assign_aliases (Ref c) options ≫= λ _, mret (Ref c))
        (evolved h r a false [v1; v2] hn))
    as Hw by by rewrite <- evolved_start in Hw.
  unfold webpack.
  assert (∅ ##ₘ h) as D0 by apply map_disjoint_empty_l.
  erewrite bind_normal; [|by eapply get_ref, evolved_lookup].
  cbn [after_webpack props andb]. rewrite Hm. cbn [default from_option id].
  erewrite bind_normal; [|by eapply get_ref, evolved_lookup].
  cbn [after_webpack props andb]. rewrite Hrr. cbn [default from_option id].
  erewrite bind_normal; [|eapply get_push_array; [by eapply evolved_lookup|done|]].
  2:{ simpl. by rewrite decide_True. }
  destruct (file_rule_literal_spec (evolved h r a false [] ∅)) as (l1 & hn1 & E1 & D1 & R1).
  erewrite bind_normal; [|exact E1]. clear E1.
  destruct (evolved_alloc h r a _ _ _ _ D0 D1) as (-> & D1' & S01 & S1).
  erewrite bind_normal; [|eapply call_push; [by eapply evolved_lookup|]].
  2:{ simpl. by rewrite decide_True. }
  rewrite (evolved_push h r a false [] _ _ items) by done. cbn [app].
  erewrite bind_normal; [|by eapply get_ref, evolved_lookup].
  cbn [after_webpack props andb]. rewrite Hm. cbn [default from_option id].
  erewrite bind_normal; [|by eapply get_ref, evolved_lookup].
  cbn [after_webpack props andb]. rewrite Hrr. cbn [default from_option id].
  erewrite bind_normal; [|eapply get_push_array; [by eapply evolved_lookup|done|]].
  2:{ simpl. by rewrite decide_True. }
  destruct (svg_rule_literal_spec (evolved h r a false [Ref l1] (hn1 ∪ ∅)))
    as (l2 & hn2 & E2 & D2 & R2).
  erewrite bind_normal; [|exact E2]. clear E2.
  destruct (evolved_alloc h r a _ _ _ _ D1' D2) as (-> & D2' & S12 & S2).
  erewrite bind_normal; [|eapply call_push; [by eapply evolved_lookup|]].
  2:{ simpl. by rewrite decide_True. }
  rewrite (evolved_push h r a false [Ref l1] _ _ items) by done. cbn [app].
  exists (hn2 ∪ (hn1 ∪ ∅)), (Ref l1), (Ref l2). split_and!; [done| | |done].
  - eapply read_rule_mono; [|done]. by etrans.
  - by eapply read_rule_mono.
Qed.

Lemma evolved_items h r a b new hn o items :
  hn ##ₘ h → h !! r = Some o → kind_of o = Array items →
  items_at (evolved h r a b new hn) r = Some (items ++ new).
Proof.
  intros D Ho Hk. unfold items_at. rewrite (evolved_lookup h r a b new hn r o D Ho).
  simpl. rewrite Hk. by rewrite decide_True.
Qed.

(** An object that is neither the rules array nor the alias object that
    was assigned to stays as it is. *)
Lemma after_webpack_other b r a new l o :
  l ≠ r → (b = true → l ≠ a) → after_webpack b r a new l o = o.
Proof.
  intros Hr Ha. destruct o as [k p]. unfold after_webpack. simpl. f_equal.
  - destruct k; try done. by rewrite decide_False.
  - destruct b; [|done]. by rewrite bool_decide_eq_false_2 by auto.
Qed.

(** No name that the hook reads is among the aliases it writes. *)
Lemma after_webpack_member b r a new l o k :
  preact_aliases !! k = None →
  props (after_webpack b r a new l o) !! k = props o !! k.
Proof.
  intros Hk. simpl. destruct (b && bool_decide (l = a)); [|done].
  rewrite lookup_union_r; done.
Qed.

Lemma bind_throw {A B} (m : M A) (f : A → M B) h h' :
  m h = (ThrowTypeError, h') → (m ≫= f) h = (ThrowTypeError, h').
Proof. unfold mbind, M_bind. by intros ->. Qed.

(** The shape of the configuration is kept by whatever appends rules and
    assigns the aliases. *)
Lemma config_shape_after (h h' : heap) c r items a pa b new :
  config_shape h c r items a pa →
  (∀ l o, h !! l = Some o → h' !! l = Some (after_webpack b r a new l o)) →
  config_shape h' c r (items ++ new) a (if b then preact_aliases ∪ pa else pa).
Proof.
  intros (Hr & Hi & Hp & Ha & Hpa) HL.
  unfold config_shape, rules_of, alias_of, items_at, own_push, props_at in *.
  destruct (h !! c) as [oc|] eqn:Hc; [|done]. simpl in Hr, Ha.
  rewrite (HL _ _ Hc). cbn [mbind option_bind].
  rewrite !after_webpack_member by done.
  destruct (props oc !! "module" ≫= read_ref) as [m|] eqn:Hm; [|done]. simpl in Hr.
  destruct (h !! m) as [om|] eqn:Hom; [|done]. simpl in Hr.
  destruct (props oc !! "resolve" ≫= read_ref) as [s|] eqn:Hs; [|done]. simpl in Ha.
  destruct (h !! s) as [os|] eqn:Hos; [|done]. simpl in Ha.
  destruct (h !! r) as [o|] eqn:Hor; [|done]. simpl in Hi, Hp.
  destruct (h !! a) as [oa|] eqn:Hoa; [|done]. simpl in Hpa. injection Hpa as <-.
  cbn [mbind option_bind].
  rewrite (HL _ _ Hom), (HL _ _ Hos), (HL _ _ Hor), (HL _ _ Hoa). cbn [mbind option_bind fmap option_fmap option_map].
  rewrite !after_webpack_member by done.
  split_and!; try done.
  - simpl. destruct (kind_of o); try done. rewrite decide_True by done.
    by injection Hi as ->.
  - simpl. rewrite bool_decide_eq_true_2 by done. by rewrite andb_true_r.
Qed.

(** ** The tests of the two rules *)

(** X1.  The test of the file-loader rule accepts a path exactly when the
    path ends with .png, .jpg, .jpeg, .gif or .mp4, letters compared
    without regard to case; nothing before the extension matters. *)
Theorem file_test_is_extension_check (path : string) :
  RegExp.test file_test path = has_media_extension path.
Proof.
  apply eq_true_iff_eq. rewrite file_test_spec. unfold has_media_extension.
  rewrite existsb_exists. split.
  - intros (e & pre & ext & He & E & Hx). exists e. split; [by apply list_elem_of_In|].
    apply bool_decide_eq_true. exists (upper pre). by rewrite E, upper_app, Hx.
  - intros (e & He & Hs). apply bool_decide_eq_true in Hs as [k Hk].
    exists e, (take (length k) (chars path)), (drop (length k) (chars path)).
    split_and!; [by apply list_elem_of_In|by rewrite take_drop|].
    by rewrite upper_drop, Hk, drop_app_length.
Qed.

(** X2.  The test of the svg rule accepts a path exactly when the path
    ends with .svg in lower case. *)
Theorem svg_test_is_extension_check (path : string) :
  RegExp.test svg_test path = has_svg_extension path.
Proof.
  apply eq_true_iff_eq. rewrite svg_test_spec. unfold has_svg_extension.
  by rewrite bool_decide_eq_true.
Qed.

(** X3.  No path matches both rules that the hook appends: a file goes to
    file-loader or to @svgr/webpack, never to both. *)
Theorem no_path_matches_both_rules (path : string) :
  rule_matches file_rule path && rule_matches svg_rule path = false.
Proof.
  unfold rule_matches. simpl.
  destruct (RegExp.test svg_test path) eqn:Hsvg; [|apply andb_false_r].
  rewrite andb_true_r. apply svg_test_spec in Hsvg as [k Hk].
  rewrite <- (unchars_chars path), Hk.
  assert (unchars (k ++ chars ".svg") = unchars k +:+ ".svg") as ->.
  { rewrite <- (unchars_chars (unchars k +:+ ".svg")). f_equal.
    by rewrite chars_app, chars_unchars. }
  apply file_test_rejects_svg.
Qed.

(** ** The hook on other configurations, and run again *)

(** X4.  When [config.module] is missing, undefined or null, or is an
    object whose [rules] is missing, undefined or null, the hook throws a
    TypeError in its first statement and the heap is as it was. *)
Theorem webpack_throws_without_rules h c options oc :
  h !! c = Some oc →
  (nullish (member oc "module") = true ∨
   ∃ m om, member oc "module" = Ref m ∧ h !! m = Some om ∧
           nullish (member om "rules") = true) →
  webpack (Ref c) options h = (ThrowTypeError, h).
Proof.
  intros Hc Hcase. unfold webpack.
  erewrite bind_normal; [|by apply get_ref].
  destruct Hcase as [Hn|(m & om & Hm & Hom & Hn)]; unfold member in *.
  - by apply get_nullish.
  - rewrite Hm. erewrite bind_normal; [|by apply get_ref]. by apply get_push_nullish.
Qed.

Lemma webpack_throws_without_rules_witness :
  webpack (Ref 1%positive) client_production
    {[ 1%positive := Object Plain {[ "module" := Ref 2%positive ]};
       2%positive := Object Plain ∅ ]} =
  (ThrowTypeError,
   {[ 1%positive := Object Plain {[ "module" := Ref 2%positive ]};
      2%positive := Object Plain ∅ ]}).
Proof.
  apply (webpack_throws_without_rules _ 1%positive client_production
           (Object Plain {[ "module" := Ref 2%positive ]})).
  - reflexivity.
  - right. exists 2%positive, (Object Plain ∅). repeat split; reflexivity.
Defined.

(** X5.  The objects of this heap have the built-in prototype of their
    kind, so one that is not an array (a plain object, a RegExp, a wrapper)
    and has no [push] of its own has no [push] at all.  When
    [config.module.rules] is such an object, the first call throws a
    TypeError, and the heap at the throw is the heap that evaluating the
    first rule literal leaves: the literal has been evaluated, its rule is
    a new object on the heap, and every object that was there is as it
    was. *)
Theorem webpack_throws_when_rules_is_no_array h c options r :
  rules_of h c = Some r →
  is_Some (h !! r) →
  items_at h r = None →
  own_push h r = None →
  ∃ l h',
    file_rule_literal h = (Normal l, h') ∧
    webpack (Ref c) options h = (ThrowTypeError, h') ∧
    h !! l = None ∧
    read_rule h' (Ref l) = Some file_rule ∧
    h ⊆ h'.
Proof.
  unfold rules_of, items_at, own_push. intros Hr [o Hor] Hi Hp. rewrite Hor in Hi, Hp.
  simpl in Hi, Hp.
  destruct (h !! c) as [oc|] eqn:Hc; [|done]. simpl in Hr.
  destruct (props oc !! "module") as [[| | | |m]|] eqn:Hm; try done. simpl in Hr.
  destruct (h !! m) as [om|] eqn:Hom; [|done]. simpl in Hr.
  destruct (props om !! "rules") as [[| | | |r']|] eqn:Hrr; try done. simpl in Hr.
  injection Hr as ->.
  unfold webpack.
  erewrite bind_normal; [|by apply get_ref]. rewrite Hm. cbn [default from_option id].
  erewrite bind_normal; [|by apply get_ref]. rewrite Hrr. cbn [default from_option id].
  assert (get_push (Ref r) h = (Normal NotCallable, h)) as Hpush.
  { unfold get_push, deref, mbind, M_bind. rewrite Hor, Hp. by destruct (kind_of o). }
  erewrite bind_normal; [|exact Hpush].
  destruct (file_rule_literal_spec h) as (l1 & hn1 & E1 & D1 & R1).
  erewrite bind_normal; [|exact E1].
  exists l1, (hn1 ∪ h). split_and!; [exact E1|reflexivity| | |].
  - unfold read_rule in R1. simpl in R1.
    destruct (hn1 !! l1) as [o1|] eqn:Hl1; [|done]. by eapply map_disjoint_Some_l.
  - eapply read_rule_mono; [apply map_union_subseteq_l|done].
  - by apply map_union_subseteq_r.
Qed.

Lemma webpack_throws_when_rules_is_no_array_witness :
  ∃ l h',
    file_rule_literal
      {[ 1%positive := Object Plain {[ "module" := Ref 2%positive ]};
         2%positive := Object Plain {[ "rules" := Ref 3%positive ]};
         3%positive := Object Plain ∅ ]} = (Normal l, h') ∧
    webpack (Ref 1%positive) development
      {[ 1%positive := Object Plain {[ "module" := Ref 2%positive ]};
         2%positive := Object Plain {[ "rules" := Ref 3%positive ]};
         3%positive := Object Plain ∅ ]} = (ThrowTypeError, h') ∧
    ({[ 1%positive := Object Plain {[ "module" := Ref 2%positive ]};
        2%positive := Object Plain {[ "rules" := Ref 3%positive ]};
        3%positive := Object Plain ∅ ]} : heap) !! l = None ∧
    read_rule h' (Ref l) = Some file_rule ∧
    ({[ 1%positive := Object Plain {[ "module" := Ref 2%positive ]};
        2%positive := Object Plain {[ "rules" := Ref 3%positive ]};
        3%positive := Object Plain ∅ ]} : heap) ⊆ h'.
Proof.
  apply (webpack_throws_when_rules_is_no_array _ 1%positive development 3%positive).
  - reflexivity.
  - by eexists.
  - reflexivity.
  - reflexivity.
Defined.

(** X6.  In a client production build of a configuration whose [resolve]
    or [resolve.alias] is missing, undefined or null, the hook throws a
    TypeError in its last statement, and both rules are on the rules array
    all the same: the exception does not undo the two pushes. *)
Theorem webpack_throws_after_pushing h c options r items oc :
  h !! c = Some oc →
  rules_of h c = Some r →
  items_at h r = Some items →
  own_push h r = None →
  dev options = false →
  isServer options = false →
  (nullish (member oc "resolve") = true ∨
   ∃ s os, member oc "resolve" = Ref s ∧ h !! s = Some os ∧
           nullish (member os "alias") = true) →
  ∃ h' v1 v2,
    webpack (Ref c) options h = (ThrowTypeError, h') ∧
    items_at h' r = Some (items ++ [v1; v2]) ∧
    read_rule h' v1 = Some file_rule ∧
    read_rule h' v2 = Some svg_rule.
Proof.
  intros Hc Hr Hi Hp Hdev Hserver Hcase.
  destruct (webpack_pushes h c options r items c Hr Hi Hp)
    as (hn & v1 & v2 & D & R1 & R2 & ->).
  assert (∃ o, h !! r = Some o ∧ kind_of o = Array items) as (o & Hor & Hk).
  { unfold items_at in Hi. destruct (h !! r) as [o|]; [|done]. exists o. split; [done|].
    simpl in Hi. destruct (kind_of o); try done. by injection Hi as ->. }
  unfold assign_aliases. rewrite Hdev, Hserver. cbn [negb andb].
  unfold member in Hcase.
  destruct Hcase as [Hn|(s & os & Hs & Hos & Hn)].
  - exists (evolved h r c false [v1; v2] hn), v1, v2. split_and!.
    + apply bind_throw.
      erewrite bind_normal; [|by eapply get_ref, evolved_lookup].
      cbn [after_webpack props andb]. by apply get_nullish.
    + by eapply evolved_items.
    + eapply read_rule_mono; [apply map_union_subseteq_l|done].
    + eapply read_rule_mono; [apply map_union_subseteq_l|done].
  - destruct (alloc_union (Object Plain preact_aliases)
                (evolved h r c false [v1; v2] hn)) as (ls & Es & Ds).
    destruct (evolved_alloc h r c _ _ _ _ D Ds) as (EH & Ds' & S2s & Ss).
    rewrite EH in Es. clear EH.
    eexists _, v1, v2. split_and!.
    + apply bind_throw.
      erewrite bind_normal; [|by eapply get_ref, evolved_lookup].
      cbn [after_webpack props andb]. rewrite Hs. cbn [default from_option id].
      erewrite bind_normal; [|by eapply get_ref, evolved_lookup].
      cbn [after_webpack props andb].
      unfold object_literal. erewrite bind_normal; [|exact Es].
      apply bind_throw.
      destruct (default Undefined (props os !! "alias")); done.
    + by eapply evolved_items.
    + eapply read_rule_mono; [|done]. etrans; [exact S2s|apply map_union_subseteq_l].
    + eapply read_rule_mono; [|done]. etrans; [exact S2s|apply map_union_subseteq_l].
Qed.

Lemma webpack_throws_after_pushing_witness :
  ∃ h' v1 v2,
    webpack (Ref 1%positive) client_production
      {[ 1%positive := Object Plain {[ "module" := Ref 2%positive ]};
         2%positive := Object Plain {[ "rules" := Ref 3%positive ]};
         3%positive := Object (Array []) ∅ ]} = (ThrowTypeError, h') ∧
    items_at h' 3%positive = Some ([] ++ [v1; v2]) ∧
    read_rule h' v1 = Some file_rule ∧
    read_rule h' v2 = Some svg_rule.
Proof.
  apply (webpack_throws_after_pushing _ 1%positive client_production 3%positive []
           (Object Plain {[ "module" := Ref 2%positive ]})).
  - reflexivity.
  - reflexivity.
  - reflexivity.
  - reflexivity.
  - reflexivity.
  - reflexivity.
  - by left.
Defined.

(** X7.  In a development build or a server build the hook does not read
    [config.resolve]: on a configuration that only has the rules array it
    returns the configuration, with the two rules appended and every other
    object as it was. *)
Theorem webpack_outside_production_ignores_resolve h c options r items :
  rules_of h c = Some r →
  items_at h r = Some items →
  own_push h r = None →
  dev options = true ∨ isServer options = true →
  ∃ h' v1 v2,
    webpack (Ref c) options h = (Normal (Ref c), h') ∧
    items_at h' r = Some (items ++ [v1; v2]) ∧
    read_rule h' v1 = Some file_rule ∧
    read_rule h' v2 = Some svg_rule ∧
    ∀ l o, h !! l = Some o → l ≠ r → h' !! l = Some o.
Proof.
  intros Hr Hi Hp Hmode.
  assert (production options = false) as Hprod.
  { unfold production. destruct Hmode as [-> | ->]; [done|apply andb_false_r]. }
  destruct (webpack_spec h c options r items c Hr Hi Hp) as (hn & v1 & v2 & E & D & R1 & R2).
  { by rewrite Hprod. }
  rewrite Hprod in E.
  assert (∃ o, h !! r = Some o ∧ kind_of o = Array items) as (o & Hor & Hk).
  { unfold items_at in Hi. destruct (h !! r) as [o|]; [|done]. exists o. split; [done|].
    simpl in Hi. destruct (kind_of o); try done. by injection Hi as ->. }
  eexists _, v1, v2. split_and!; [exact E| | | |].
  - by eapply (evolved_items h r c false).
  - eapply read_rule_mono; [apply map_union_subseteq_l|done].
  - eapply read_rule_mono; [apply map_union_subseteq_l|done].
  - intros l o' Hl Hne.
    pose proof (evolved_lookup h r c false [v1; v2] hn l o' D Hl) as HL.
    unfold evolved in HL. rewrite HL. by rewrite after_webpack_other.
Qed.

Lemma webpack_outside_production_ignores_resolve_witness :
  ∃ h' v1 v2,
    webpack (Ref 1%positive) development
      {[ 1%positive := Object Plain {[ "module" := Ref 2%positive ]};
         2%positive := Object Plain {[ "rules" := Ref 3%positive ]};
         3%positive := Object (Array []) ∅ ]} = (Normal (Ref 1%positive), h') ∧
    items_at h' 3%positive = Some ([] ++ [v1; v2]) ∧
    read_rule h' v1 = Some file_rule ∧
    read_rule h' v2 = Some svg_rule ∧
    ∀ l o,
      ({[ 1%positive := Object Plain {[ "module" := Ref 2%positive ]};
          2%positive := Object Plain {[ "rules" := Ref 3%positive ]};
          3%positive := Object (Array []) ∅ ]} : heap) !! l = Some o →
      l ≠ 3%positive → h' !! l = Some o.
Proof.
  apply (webpack_outside_production_ignores_resolve _ 1%positive development 3%positive []).
  - reflexivity.
  - reflexivity.
  - reflexivity.
  - by left.
Defined.

(** X8.  The two rules that the hook appends are two different objects
    that were not on the heap before: no object of the configuration is
    used as a rule. *)
Theorem webpack_rules_are_new_objects h c options r items a pa :
  config_shape h c r items a pa →
  ∃ h' l1 l2,
    webpack (Ref c) options h = (Normal (Ref c), h') ∧
    items_at h' r = Some (items ++ [Ref l1; Ref l2]) ∧
    h !! l1 = None ∧
    h !! l2 = None ∧
    l1 ≠ l2.
Proof.
  intros (Hr & Hi & Hp & Ha & Hpa).
  assert (is_Some (h !! a)) as Hsa.
  { unfold props_at in Hpa. destruct (h !! a); [by eexists|done]. }
  destruct (webpack_spec h c options r items a Hr Hi Hp (λ _, conj Ha Hsa))
    as (hn & v1 & v2 & E & D & R1 & R2).
  assert (∃ o, h !! r = Some o ∧ kind_of o = Array items) as (o & Hor & Hk).
  { unfold items_at in Hi. destruct (h !! r) as [o|]; [|done]. exists o. split; [done|].
    simpl in Hi. destruct (kind_of o); try done. by injection Hi as ->. }
  assert (∀ v rule, read_rule hn v = Some rule → ∃ l, v = Ref l ∧ h !! l = None) as Hnew.
  { intros v rule Hv. unfold read_rule in Hv. destruct v as [| | | |l]; try done.
    exists l. split; [done|]. simpl in Hv. destruct (hn !! l) as [o'|] eqn:Hl; [|done].
    by eapply map_disjoint_Some_l. }
  destruct (Hnew _ _ R1) as (l1 & -> & H1), (Hnew _ _ R2) as (l2 & -> & H2).
  eexists _, l1, l2. split_and!; [exact E| |done|done|].
  - by eapply (evolved_items h r a).
  - intros ->. rewrite R1 in R2. by injection R2.
Qed.

Lemma webpack_rules_are_new_objects_witness :
  ∃ h' l1 l2,
    webpack (Ref 1%positive) development example_heap = (Normal (Ref 1%positive), h') ∧
    items_at h' 3%positive = Some ([Ref 6%positive] ++ [Ref l1; Ref l2]) ∧
    example_heap !! l1 = None ∧
    example_heap !! l2 = None ∧
    l1 ≠ l2.
Proof.
  apply (webpack_rules_are_new_objects example_heap 1%positive development 3%positive
           [Ref 6%positive] 5%positive {[ "next" := Str "/app/node_modules/next" ]}).
  repeat split; reflexivity.
Defined.

(** X9.  The hook keeps the shape of the configuration: afterwards
    [config.module.rules] is still an array with the standard [push],
    [config.resolve.alias] is still an object, and no object has left the
    heap. *)
Theorem webpack_keeps_config_shape h c options r items a pa :
  config_shape h c r items a pa →
  ∃ h' v1 v2,
    webpack (Ref c) options h = (Normal (Ref c), h') ∧
    config_shape h' c r (items ++ [v1; v2]) a
      (if production options then preact_aliases ∪ pa else pa) ∧
    dom h ⊆ dom h'.
Proof.
  intros Hs.
  destruct (webpack_run h c options r items a pa Hs)
    as (h' & v1 & v2 & E & _ & _ & _ & _ & HL).
  exists h', v1, v2. split_and!; [exact E|by eapply config_shape_after|].
  intros l Hl. apply elem_of_dom in Hl as [o Ho]. apply elem_of_dom.
  rewrite (HL _ _ Ho). by eexists.
Qed.

Lemma webpack_keeps_config_shape_witness :
  ∃ h' v1 v2,
    webpack (Ref 1%positive) client_production example_heap =
      (Normal (Ref 1%positive), h') ∧
    config_shape h' 1%positive 3%positive ([Ref 6%positive] ++ [v1; v2]) 5%positive
      (if production client_production
       then preact_aliases ∪ {[ "next" := Str "/app/node_modules/next" ]}
       else {[ "next" := Str "/app/node_modules/next" ]}) ∧
    dom example_heap ⊆ dom h'.
Proof.
  apply (webpack_keeps_config_shape example_heap 1%positive client_production 3%positive
           [Ref 6%positive] 5%positive).
  repeat split; reflexivity.
Defined.

(** X10.  Run twice on the same configuration, the hook appends the two
    rules twice, in the order file-loader, svgr, file-loader, svgr, while
    the second run leaves the aliases as the first run set them. *)
Theorem webpack_twice h c options r items a pa :
  config_shape h c r items a pa →
  ∃ h1 h2 v1 v2 v3 v4,
    webpack (Ref c) options h = (Normal (Ref c), h1) ∧
    webpack (Ref c) options h1 = (Normal (Ref c), h2) ∧
    items_at h2 r = Some (items ++ [v1; v2; v3; v4]) ∧
    read_rule h2 v1 = Some file_rule ∧
    read_rule h2 v2 = Some svg_rule ∧
    read_rule h2 v3 = Some file_rule ∧
    read_rule h2 v4 = Some svg_rule ∧
    props_at h2 a = props_at h1 a.
Proof.
  intros Hs. pose proof Hs as (Hr & Hi & Hp & Ha & Hpa).
  assert (is_Some (h !! a)) as Hsa.
  { unfold props_at in Hpa. destruct (h !! a); [by eexists|done]. }
  assert (is_Some (h !! r)) as Hsr.
  { unfold items_at in Hi. destruct (h !! r); [by eexists|done]. }
  destruct (webpack_spec h c options r items a Hr Hi Hp (λ _, conj Ha Hsa))
    as (hn & v1 & v2 & E1 & D & R1 & R2).
  set (h1 := hn ∪ update_all (after_webpack (production options) r a [v1; v2]) h) in *.
  assert (∀ l o, h !! l = Some o →
    h1 !! l = Some (after_webpack (production options) r a [v1; v2] l o)) as HL1.
  { intros l o Hl. by apply (evolved_lookup h r a). }
  pose proof (config_shape_after h h1 c r items a pa _ _ Hs HL1) as Hs1.
  destruct (webpack_run h1 c options r _ a _ Hs1)
    as (h2 & v3 & v4 & E2 & R3 & R4 & Hi2 & Hpa2 & HL2).
  assert (hn ⊆ h2) as Hsub.
  { apply map_subseteq_spec. intros l o Hl.
    assert (h1 !! l = Some o) as Hl1 by by apply lookup_union_Some_l.
    rewrite (HL2 _ _ Hl1). f_equal. apply after_webpack_other.
    - intros ->. destruct Hsr as [o' Ho']. by rewrite (map_disjoint_Some_l _ _ _ _ D Hl) in Ho'.
    - intros _ ->. destruct Hsa as [o' Ho']. by rewrite (map_disjoint_Some_l _ _ _ _ D Hl) in Ho'. }
  exists h1, h2, v1, v2, v3, v4. split_and!; try done.
  - by rewrite Hi2, <- (assoc_L (++)).
  - by eapply read_rule_mono.
  - by eapply read_rule_mono.
  - rewrite Hpa2. destruct Hs1 as (_ & _ & _ & _ & ->). f_equal.
    destruct (production options); [|done].
    by rewrite (assoc_L (∪)), (idemp_L (∪)).
Qed.

Lemma webpack_twice_witness :
  ∃ h1 h2 v1 v2 v3 v4,
    webpack (Ref 1%positive) client_production example_heap =
      (Normal (Ref 1%positive), h1) ∧
    webpack (Ref 1%positive) client_production h1 = (Normal (Ref 1%positive), h2) ∧
    items_at h2 3%positive = Some ([Ref 6%positive] ++ [v1; v2; v3; v4]) ∧
    read_rule h2 v1 = Some file_rule ∧
    read_rule h2 v2 = Some svg_rule ∧
    read_rule h2 v3 = Some file_rule ∧
    read_rule h2 v4 = Some svg_rule ∧
    props_at h2 5%positive = props_at h1 5%positive.
Proof.
  apply (webpack_twice example_heap 1%positive client_production 3%positive
           [Ref 6%positive] 5%positive {[ "next" := Str "/app/node_modules/next" ]}).
  repeat split; reflexivity.
Defined.

(** X11.  In a client production build the four aliases have the Preact
    values afterwards whatever they were before, every other alias is as
    it was, and no alias is removed. *)
Theorem aliases_overwrite_and_keep h c options r items a pa :
  config_shape h c r items a pa →
  dev options = false →
  isServer options = false →
  ∃ h' pa',
    webpack (Ref c) options h = (Normal (Ref c), h') ∧
    props_at h' a = Some pa' ∧
    pa' !! "react/jsx-runtime.js" = Some (Str "preact/compat/jsx-runtime") ∧
    pa' !! "react" = Some (Str "preact/compat") ∧
    pa' !! "react-dom/test-utils" = Some (Str "preact/test-utils") ∧
    pa' !! "react-dom" = Some (Str "preact/compat") ∧
    (∀ k, k ∉ ["react/jsx-runtime.js"; "react"; "react-dom/test-utils"; "react-dom"] →
          pa' !! k = pa !! k) ∧
    dom pa ⊆ dom pa'.
Proof.
  intros Hs Hdev Hserver.
  destruct (webpack_run h c options r items a pa Hs)
    as (h' & v1 & v2 & E & _ & _ & _ & Hpa & _).
  unfold production in Hpa. rewrite Hdev, Hserver in Hpa. simpl in Hpa.
  exists h', (preact_aliases ∪ pa).
  split_and!; [done|done|by apply lookup_union_Some_l..| |].
  - intros k Hk. apply lookup_union_r. unfold preact_aliases.
    rewrite !lookup_insert_ne, lookup_singleton_ne; [done|..];
      intros <-; apply Hk; set_solver.
  - rewrite dom_union. set_solver.
Qed.

Lemma aliases_overwrite_and_keep_witness :
  ∃ h' pa',
    webpack (Ref 1%positive) client_production example_heap =
      (Normal (Ref 1%positive), h') ∧
    props_at h' 5%positive = Some pa' ∧
    pa' !! "react/jsx-runtime.js" = Some (Str "preact/compat/jsx-runtime") ∧
    pa' !! "react" = Some (Str "preact/compat") ∧
    pa' !! "react-dom/test-utils" = Some (Str "preact/test-utils") ∧
    pa' !! "react-dom" = Some (Str "preact/compat") ∧
    (∀ k, k ∉ ["react/jsx-runtime.js"; "react"; "react-dom/test-utils"; "react-dom"] →
          pa' !! k = ({[ "next" := Str "/app/node_modules/next" ]} : gmap string value) !! k) ∧
    dom ({[ "next" := Str "/app/node_modules/next" ]} : gmap string value) ⊆ dom pa'.
Proof.
  apply (aliases_overwrite_and_keep example_heap 1%positive client_production 3%positive
           [Ref 6%positive] 5%positive).
  - repeat split; reflexivity.
  - reflexivity.
  - reflexivity.
Defined.

